(** * LAS point-cloud export (arcgis.py): a shallow embedding and its properties

    The development follows the Python module [src/arcgis/arcgis.py]:
    [chunk_points], [export_las_to_excel], [export_las_to_csv], [main] and the
    worker of the window application.  The file system, the [laspy] reader
    and the [openpyxl] write-only workbook are the state the functions act
    on; exceptions are explicit outcomes. *)

From Stdlib Require Import ZArith Floats Ascii String.
From stdpp Require Import gmap strings list pretty.

Local Open Scope Z_scope.

(** ** Cells, rows and the header row *)

(** A value handed to a sink: a Python [str] or a [float] (binary64). *)
Inductive Cell : Type :=
  | CStr (s : string)
  | CNum (x : float).

Abbreviation Row := (list Cell).

(** [["EASTING", "NORTHING", "ELEVATION"]] *)
Definition HEADER : Row :=
  [CStr "EASTING"; CStr "NORTHING"; CStr "ELEVATION"].

(** ** The point source *)

Module Las.

Inductive SourceError : Type := Malformed | Truncated | Io.

Record Header : Type := mkHeader {
  point_count : Z;
  scale : float * float * float;
  offset : float * float * float;
  point_record_length : Z;
  record_format : Z
}.

(** A stored point record: the three signed integers X, Y, Z. *)
Abbreviation Record3 := (Z * Z * Z)%type.

(** The content of a .las file: its header and the records actually
    present in the point-data region. *)
Record LasFile : Type := mkLas {
  header : Header;
  records : list Record3
}.

(** Conversion of a stored integer to binary64 (exact for 32-bit values). *)
Definition float_of_Z (z : Z) : float :=
  match z with
  | Z0 => 0%float
  | Zpos _ => PrimFloat.of_uint63 (Uint63.of_Z z)
  | Zneg p => PrimFloat.opp (PrimFloat.of_uint63 (Uint63.of_Z (Zpos p)))
  end.

(** Modelled from the spec: the decoder of [laspy] (an external library, not
    under src/).  "Coordinate recovery: real = stored_integer * scale +
    offset, applied independently per axis, using double-precision
    arithmetic". *)
Definition scaled (stored : Z) (sc off : float) : float :=
  PrimFloat.add (PrimFloat.mul (float_of_Z stored) sc) off.

(** A chunk of point records as the reader hands it out ([points]); the
    attributes [.x], [.y], [.z] are the scaled coordinate arrays. *)
Record Points : Type := mkPoints {
  pt_header : Header;
  pt_records : list Record3
}.

Definition x (p : Points) : list float :=
  (λ r, scaled r.1.1 (scale (pt_header p)).1.1 (offset (pt_header p)).1.1)
    <$> pt_records p.
Definition y (p : Points) : list float :=
  (λ r, scaled r.1.2 (scale (pt_header p)).1.2 (offset (pt_header p)).1.2)
    <$> pt_records p.
Definition z (p : Points) : list float :=
  (λ r, scaled r.2 (scale (pt_header p)).2 (offset (pt_header p)).2)
    <$> pt_records p.

(** Modelled from the spec: [reader.chunk_iterator(chunk_size)] of [laspy].
    "A finite, single-pass sequence.  Each element holds at most chunk_size
    point records; the final chunk may hold fewer."  One unit of [fuel] is
    one iteration of the generator; [None] means that the generator is
    still running when the fuel is spent.  A chunk size below 1 is outside
    the reader's contract: the model then reads nothing per iteration and
    makes no progress. *)
Fixpoint chunk_iterator (fuel : nat) (hdr : Header) (chunk_size : Z)
    (rest : list Record3) : option (list Points) :=
  match rest with
  | [] => Some []
  | _ :: _ =>
      match fuel with
      | O => None
      | S fuel' =>
          let n := Z.to_nat chunk_size in
          cons (mkPoints hdr (take n rest))
            <$> chunk_iterator fuel' hdr chunk_size (drop n rest)
      end
  end.

(** Modelled from the spec: the same generator of [laspy], observed when
    the fuel is spent.  "A finite, single-pass sequence" that "never
    buffers more than one chunk in memory": the chunks handed out within
    the fuel are those the consuming loop has run its body on, one unit of
    fuel per chunk, and all of them when the generator has finished. *)
Fixpoint chunks_yielded (fuel : nat) (hdr : Header) (chunk_size : Z)
    (rest : list Record3) : list Points :=
  match rest with
  | [] => []
  | _ :: _ =>
      match fuel with
      | O => []
      | S fuel' =>
          let n := Z.to_nat chunk_size in
          mkPoints hdr (take n rest)
            :: chunks_yielded fuel' hdr chunk_size (drop n rest)
      end
  end.

End Las.

Export Las (SourceError, Malformed, Truncated, Io).

(** ** The paginated container (write-only workbook) *)

Record Worksheet : Type := mkSheet {
  title : string;
  rows : list Row
}.

(** ** Files and the file system *)

Inductive File : Type :=
  | LasData (f : Las.LasFile)
  | CsvData (lines : list Row)
  | XlsxData (sheets : list Worksheet).

(** Modelled from the spec: [laspy.open(path)], the header parse of the
    external reader.  "Fails with Malformed if magic/layout fields are
    inconsistent, Truncated if the file is shorter than the header declares,
    Io for underlying read failures"; the header invariant "point_count
    matches the byte length of the point-data region divided by
    point_record_length (mismatch => fatal parse error)". *)
Definition laspy_open (path : string) (fs : gmap string File)
    : SourceError + Las.LasFile :=
  match fs !! path with
  | None => inl Io
  | Some (LasData f) =>
      let n := Z.of_nat (length (Las.records f)) in
      if bool_decide (n < Las.point_count (Las.header f)) then inl Truncated
      else if bool_decide (Las.point_count (Las.header f) < n) then inl Malformed
      else inr f
  | Some _ => inl Malformed
  end.

(** How a call ends: it returns, it raises, or it is still running when the
    fuel is spent. *)
Inductive Outcome : Type :=
  | Return
  | Raise (e : SourceError)
  | Diverge.

(** ** Constants of the module *)

Definition EXCEL_MAX_ROWS : Z := 1048576.
Definition DEFAULT_LAS : string := "./sample.las".
Definition CHUNK_SIZE : Z := 500000.

(** ** chunk_points *)

(** Python's [zip] of three sequences: it stops at the shortest. *)
Fixpoint zip3 {A B C : Type} (xs : list A) (ys : list B) (zs : list C)
    : list (A * B * C) :=
  match xs, ys, zs with
  | a :: xs', b :: ys', c :: zs' => (a, b, c) :: zip3 xs' ys' zs'
  | _, _, _ => []
  end.

(** A tuple [(x, y, z)] of floats as the row a sink receives. *)
Definition row_of (t : float * float * float) : Row :=
  [CNum t.1.1; CNum t.1.2; CNum t.2].

Abbreviation Arrays := (list float * list float * list float)%type.

(** [for points in reader.chunk_iterator(chunk_size):
       yield points.x, points.y, points.z] *)
Definition chunk_points (fuel : nat) (reader : Las.LasFile) (chunk_size : Z)
    : option (list Arrays) :=
  match Las.chunk_iterator fuel (Las.header reader) chunk_size (Las.records reader) with
  | Some chunks =>
      Some ((λ points, (Las.x points, Las.y points, Las.z points)) <$> chunks)
  | None => None
  end.

(** The tuples [chunk_points] has yielded when the fuel is spent. *)
Definition chunk_points_yielded (fuel : nat) (reader : Las.LasFile)
    (chunk_size : Z) : list Arrays :=
  (λ points, (Las.x points, Las.y points, Las.z points))
    <$> Las.chunks_yielded fuel (Las.header reader) chunk_size (Las.records reader).

(** ** export_las_to_excel *)

(** [f"Points_{sheet_index}"] *)
Definition sheet_title (sheet_index : Z) : string :=
  "Points_" +:+ pretty sheet_index.

(** [wb.create_sheet(title=...)]: the new sheet goes last; the handle of a
    sheet is its position in the workbook. *)
Definition create_sheet (t : string) (wb : list Worksheet)
    : list Worksheet * nat :=
  (wb ++ [mkSheet t []], length wb).

(** [ws.append(row)] on the sheet with handle [ws]. *)
Definition ws_append (ws : nat) (row : Row) (wb : list Worksheet)
    : list Worksheet :=
  alter (λ s, mkSheet (title s) (rows s ++ [row])) ws wb.

(** The local variables of [export_las_to_excel]. *)
Record Excel : Type := mkExcel {
  wb : list Worksheet;
  ws : nat;
  sheet_index : Z;
  rows_in_sheet : Z
}.

(** Lines 33-38: the workbook, its first sheet and the header row. *)
Definition excel_start : Excel :=
  let sheet_index := 1 in
  let '(wb, ws) := create_sheet (sheet_title sheet_index) [] in
  let wb := ws_append ws HEADER wb in
  mkExcel wb ws sheet_index 1.

(** Lines 44-51: the body of the inner loop, for one [row]. *)
Definition excel_row (max_rows : Z) (st : Excel) (row : Row) : Excel :=
  let st :=
    if bool_decide (max_rows ≤ rows_in_sheet st) then
      let sheet_index := sheet_index st + 1 in
      let '(wb, ws) := create_sheet (sheet_title sheet_index) (wb st) in
      let wb := ws_append ws HEADER wb in
      mkExcel wb ws sheet_index 1
    else st in
  mkExcel (ws_append (ws st) row (wb st)) (ws st) (sheet_index st)
          (rows_in_sheet st + 1).

(** Lines 41-51: the outer loop over the chunks and the inner loop over the
    rows of a chunk. *)
Definition excel_chunk (max_rows : Z) (st : Excel) (c : Arrays) : Excel :=
  foldl (excel_row max_rows) st (row_of <$> zip3 c.1.1 c.1.2 c.2).

Definition excel_loop (max_rows : Z) (st : Excel) (chunks : list Arrays) : Excel :=
  foldl (excel_chunk max_rows) st chunks.

(** The export with the page capacity as an argument; the source fixes it to
    [EXCEL_MAX_ROWS].  An exception raised by the reader leaves the function
    before [wb.save], so nothing is written. *)
Definition export_paginated (max_rows : Z) (fuel : nat)
    (las_path xlsx_path : string) (chunk_size : Z) (fs : gmap string File)
    : Outcome * gmap string File :=
  let st := excel_start in
  match laspy_open las_path fs with
  | inl e => (Raise e, fs)
  | inr reader =>
      match chunk_points fuel reader (Z.max 1 chunk_size) with
      | None => (Diverge, fs)
      | Some chunks =>
          let st := excel_loop max_rows st chunks in
          (Return, <[xlsx_path := XlsxData (wb st)]> fs)
      end
  end.

Definition export_las_to_excel : nat → string → string → Z →
    gmap string File → Outcome * gmap string File :=
  export_paginated EXCEL_MAX_ROWS.

(** ** export_las_to_csv *)

(** [open(csv_path, "w")]: the file is created, or emptied when it exists. *)
Definition open_w (path : string) (fs : gmap string File) : gmap string File :=
  <[path := CsvData []]> fs.

(** [writer.writerows(rows)] on the stream opened at [path]. *)
Definition writerows (path : string) (new : list Row) (fs : gmap string File)
    : gmap string File :=
  alter (λ f, match f with
              | CsvData lines => CsvData (lines ++ new)
              | other => other
              end) path fs.

(** [writer.writerow(row)] *)
Definition writerow (path : string) (row : Row) (fs : gmap string File)
    : gmap string File :=
  writerows path [row] fs.

Definition csv_chunk (csv_path : string) (fs : gmap string File) (c : Arrays)
    : gmap string File :=
  writerows csv_path (row_of <$> zip3 c.1.1 c.1.2 c.2) fs.

(** The output stream is opened and the header written before the input is
    opened; the [with] block closes the stream on every exit, so what was
    written stays in the file when the reader raises.  Every chunk is
    written before the next one is read: a run that is still going when the
    fuel is spent has written the chunks yielded so far. *)
Definition export_las_to_csv (fuel : nat) (las_path csv_path : string)
    (chunk_size : Z) (fs : gmap string File) : Outcome * gmap string File :=
  let fs := open_w csv_path fs in
  let fs := writerow csv_path HEADER fs in
  match laspy_open las_path fs with
  | inl e => (Raise e, fs)
  | inr reader =>
      match chunk_points fuel reader (Z.max 1 chunk_size) with
      | None =>
          (Diverge,
           foldl (csv_chunk csv_path) fs
             (chunk_points_yielded fuel reader (Z.max 1 chunk_size)))
      | Some chunks => (Return, foldl (csv_chunk csv_path) fs chunks)
      end
  end.

(** ** Paths: the functions of Python's [os.path] (posixpath) and [str] that
    [main] and the worker use *)

Module OsPath.

(** [s.rfind(c)]: the index of the last occurrence of [c], or -1. *)
Fixpoint rfind (c : ascii) (s : string) : Z :=
  match s with
  | EmptyString => -1
  | String a s' =>
      let i := rfind c s' in
      if bool_decide (0 ≤ i) then i + 1
      else if Ascii.eqb a c then 0 else -1
  end.

(** The slices [s[:i]] and [s[i:]] for [0 <= i]. *)
Definition upto (i : Z) (s : string) : string :=
  substring 0 (Z.to_nat i) s.
Definition from (i : Z) (s : string) : string :=
  substring (Z.to_nat i) (String.length s - Z.to_nat i)%nat s.

(** [s.rstrip("/")] *)
Fixpoint rstrip_sep (s : string) : string :=
  match s with
  | EmptyString => EmptyString
  | String a s' =>
      match rstrip_sep s' with
      | EmptyString => if Ascii.eqb a "/" then EmptyString else String a EmptyString
      | t => String a t
      end
  end.

(** [os.path.basename(p)]: [i = p.rfind("/") + 1; return p[i:]] *)
Definition basename (p : string) : string :=
  let i := rfind "/" p + 1 in
  from i p.

(** [os.path.dirname(p)]: the head [p[:i]], without its trailing slashes
    unless it consists of slashes only. *)
Definition dirname (p : string) : string :=
  let i := rfind "/" p + 1 in
  let head := upto i p in
  match rstrip_sep head with
  | EmptyString => head
  | stripped => stripped
  end.

(** [os.path.splitext(p)]: split at the last dot when it comes after the
    last separator and some character between them is not a dot. *)
Definition splitext (p : string) : string * string :=
  let sepIndex := rfind "/" p in
  let dotIndex := rfind "." p in
  if bool_decide (sepIndex < dotIndex) then
    let name := substring (Z.to_nat (sepIndex + 1))
                  (Z.to_nat (dotIndex - (sepIndex + 1))) p in
    if existsb (λ c, negb (Ascii.eqb c ".")) (list_ascii_of_string name)
    then (upto dotIndex p, from dotIndex p)
    else (p, EmptyString)
  else (p, EmptyString).

(** [os.path.join(a, b)] *)
Definition join (a b : string) : string :=
  if String.prefix "/" b then b
  else if bool_decide (a = EmptyString) then a +:+ b
  else if bool_decide (rfind "/" a = Z.of_nat (String.length a) - 1) then a +:+ b
  else a +:+ "/" +:+ b.

(** [s.rsplit(".", 1)[0]] *)
Definition rsplit_dot_head (s : string) : string :=
  let i := rfind "." s in
  if bool_decide (0 ≤ i) then upto i s else s.

End OsPath.

(** ** main *)

(** What [main] acts on: the files and the lines printed. *)
Record World : Type := mkWorld {
  files : gmap string File;
  stdout : list string
}.

(** [os.path.isfile(p)] *)
Definition isfile (fs : gmap string File) (p : string) : bool :=
  bool_decide (is_Some (fs !! p)).

(** Lines 88-93: the loop over the input files of the command line.  No
    exception is caught here: the first export that raises ends the loop. *)
Fixpoint main_loop (fuel : nat) (todo : list string) (w : World)
    : Outcome * World :=
  match todo with
  | [] => (Return, w)
  | las_path :: todo' =>
      let base := (OsPath.splitext (OsPath.basename las_path)).1 in
      let out_dir := OsPath.dirname las_path in
      let out_csv := OsPath.join out_dir (base +:+ ".csv") in
      match export_las_to_csv fuel las_path out_csv CHUNK_SIZE (files w) with
      | (Return, fs) =>
          main_loop fuel todo'
            (mkWorld fs (stdout w ++ ["Exported: " +:+ out_csv]))
      | (o, fs) => (o, mkWorld fs (stdout w))
      end
  end.

(** How [main] ends: one of the two batch modes finished, or the window
    application took over ([App().mainloop()]). *)
Inductive MainEnd : Type :=
  | Finished (o : Outcome)
  | Mainloop.

Definition main (fuel : nat) (environ : gmap string string)
    (argv : list string) (w : World) : MainEnd * World :=
  if bool_decide (environ !! "LAS_EXPORT_HEADLESS" = Some "1") then
    let las_path := DEFAULT_LAS in
    let out_path := OsPath.rsplit_dot_head las_path +:+ ".csv" in
    match export_las_to_csv fuel las_path out_path CHUNK_SIZE (files w) with
    | (Return, fs) =>
        (Finished Return,
         mkWorld fs (stdout w ++ ["Headless export complete: " +:+ out_path]))
    | (o, fs) => (Finished o, mkWorld fs (stdout w))
    end
  else if bool_decide (1 < Z.of_nat (length argv)) then
    let todo := filter (λ p, isfile (files w) p = true) (tail argv) in
    match todo with
    | [] => (Finished Return,
             mkWorld (files w) (stdout w ++ ["No valid input files provided."]))
    | _ :: _ => let r := main_loop fuel todo w in (Finished r.1, r.2)
    end
  else (Mainloop, w).

(** ** App._export_worker *)

(** The fields of the window application that the worker reads. *)
Record App : Type := mkApp {
  selected_files : list string;
  output_dir : string;
  as_csv_var : bool
}.

(** The callbacks the worker schedules on the window ([self.after(0, ...)]). *)
Inductive UiEvent : Type :=
  | ShowError (p : string) (e : SourceError)
  | Progress (v : Z)
  | ExportDone (n : Z).

(** Lines 174-189: the loop of the worker; every export runs inside
    [try]/[except Exception]/[finally]. *)
Fixpoint worker_loop (fuel : nat) (self : App) (todo : list (Z * string))
    (ok : Z) (fs : gmap string File) (ui : list UiEvent)
    : Outcome * (Z * gmap string File * list UiEvent) :=
  match todo with
  | [] => (Return, (ok, fs, ui))
  | (idx, las_path) :: todo' =>
      let base := (OsPath.splitext (OsPath.basename las_path)).1 in
      let ext := if as_csv_var self then ".csv" else ".xlsx" in
      let x_path :=
        if bool_decide (output_dir self ≠ EmptyString)
        then OsPath.join (output_dir self) (base +:+ ext)
        else OsPath.join (OsPath.dirname las_path) (base +:+ ext) in
      let r :=
        if as_csv_var self
        then export_las_to_csv fuel las_path x_path CHUNK_SIZE fs
        else export_las_to_excel fuel las_path x_path CHUNK_SIZE fs in
      match r with
      | (Return, fs') =>
          worker_loop fuel self todo' (ok + 1) fs' (ui ++ [Progress idx])
      | (Raise e, fs') =>
          worker_loop fuel self todo' ok fs'
            (ui ++ [ShowError las_path e; Progress idx])
      | (Diverge, fs') => (Diverge, (ok, fs', ui))
      end
  end.

(** [enumerate(xs, start=1)] *)
Definition enumerate1 {A : Type} (xs : list A) : list (Z * A) :=
  imap (λ i a, (Z.of_nat i + 1, a)) xs.

Definition _export_worker (fuel : nat) (self : App) (fs : gmap string File)
    : Outcome * (gmap string File * list UiEvent) :=
  match worker_loop fuel self (enumerate1 (selected_files self)) 0 fs [] with
  | (Return, (ok, fs', ui)) => (Return, (fs', ui ++ [ExportDone ok]))
  | (o, (_, fs', ui)) => (o, (fs', ui))
  end.

(** ** The window application: handlers and scheduled callbacks *)

(** A message box shown to the user.  The text of an error box is the path
    and [str(e)]; the box keeps the path and the exception. *)
Inductive Dialog : Type :=
  | ShowInfo (heading message : string)
  | ShowErrorBox (p : string) (e : SourceError).

(** The window: the fields the worker reads ([fields]) and the widgets the
    handlers act on.  A button is [true] when its state is [tk.NORMAL] and
    [false] when it is [tk.DISABLED]. *)
Record Window : Type := mkWindow {
  fields : App;
  out_var : string;
  listbox : list string;
  status_var : string;
  import_btn : bool;
  out_btn : bool;
  export_btn : bool;
  progress_maximum : Z;
  progress_value : Z;
  dialogs : list Dialog
}.

(** [App.__init__]: no file selected, no output folder, CSV chosen, the
    buttons enabled, the progress bar at its start (Tk's default maximum is
    100). *)
Definition App_init : Window :=
  mkWindow (mkApp [] "" true) "(same folder as input)" [] "Ready"
    true true true 100 0 [].

(** [App.on_import], for the [paths] the file dialog returns (none when the
    user cancels). *)
Definition on_import (paths : list string) (self : Window) : Window :=
  match paths with
  | [] => self
  | _ :: _ =>
      let selected := paths in
      let lb := foldl (λ lb p, lb ++ [p]) [] selected in
      mkWindow (mkApp selected (output_dir (fields self)) (as_csv_var (fields self)))
        (out_var self) lb
        ("Selected " +:+ pretty (Z.of_nat (length selected)) +:+ " file(s)")
        (import_btn self) (out_btn self) (export_btn self)
        (progress_maximum self) (progress_value self) (dialogs self)
  end.

(** [App.on_choose_output], for the folder [d] the dialog returns (empty
    when the user cancels). *)
Definition on_choose_output (d : string) (self : Window) : Window :=
  if bool_decide (d = EmptyString) then self
  else
    mkWindow (mkApp (selected_files (fields self)) d (as_csv_var (fields self)))
      d (listbox self) (status_var self)
      (import_btn self) (out_btn self) (export_btn self)
      (progress_maximum self) (progress_value self) (dialogs self).

(** [App.disable_controls] and [App.enable_controls] *)
Definition disable_controls (self : Window) : Window :=
  mkWindow (fields self) (out_var self) (listbox self) (status_var self)
    false false false
    (progress_maximum self) (progress_value self) (dialogs self).
Definition enable_controls (self : Window) : Window :=
  mkWindow (fields self) (out_var self) (listbox self) (status_var self)
    true true true
    (progress_maximum self) (progress_value self) (dialogs self).

(** [App.on_export]: the window after the handler, and whether the worker
    thread was started. *)
Definition on_export (self : Window) : Window * bool :=
  match selected_files (fields self) with
  | [] =>
      (mkWindow (fields self) (out_var self) (listbox self) (status_var self)
         (import_btn self) (out_btn self) (export_btn self)
         (progress_maximum self) (progress_value self)
         (dialogs self ++ [ShowInfo "No files" "Import .las/.laz files first"]),
       false)
  | _ :: _ =>
      let self := disable_controls self in
      (mkWindow (fields self) (out_var self) (listbox self) "Exporting..."
         (import_btn self) (out_btn self) (export_btn self)
         (Z.of_nat (length (selected_files (fields self)))) 0 (dialogs self),
       true)
  end.

(** [App._export_done] *)
Definition _export_done (ok : Z) (self : Window) : Window :=
  let status :=
    "Completed: " +:+ pretty ok +:+ "/"
      +:+ pretty (Z.of_nat (length (selected_files (fields self)))) in
  let self := enable_controls
    (mkWindow (fields self) (out_var self) (listbox self) status
       (import_btn self) (out_btn self) (export_btn self)
       (progress_maximum self) (progress_value self) (dialogs self)) in
  if bool_decide (0 < ok) then
    mkWindow (fields self) (out_var self) (listbox self) (status_var self)
      (import_btn self) (out_btn self) (export_btn self)
      (progress_maximum self) (progress_value self)
      (dialogs self ++ [ShowInfo "Done" ("Exported " +:+ pretty ok +:+ " file(s)")])
  else self.

(** A callback that the worker scheduled with [self.after(0, ...)], run by
    the window. *)
Definition run_callback (self : Window) (ev : UiEvent) : Window :=
  match ev with
  | ShowError p e =>
      mkWindow (fields self) (out_var self) (listbox self) (status_var self)
        (import_btn self) (out_btn self) (export_btn self)
        (progress_maximum self) (progress_value self)
        (dialogs self ++ [ShowErrorBox p e])
  | Progress v =>
      mkWindow (fields self) (out_var self) (listbox self) (status_var self)
        (import_btn self) (out_btn self) (export_btn self)
        (progress_maximum self) v (dialogs self)
  | ExportDone n => _export_done n self
  end.

(** What the user does between two exports. *)
Inductive Action : Type :=
  | Import (paths : list string)
  | ChooseOutput (d : string)
  | ToggleCsv
  | ClickExport.

(** The check box bound to [as_csv_var]. *)
Definition toggle_csv (self : Window) : Window :=
  mkWindow (mkApp (selected_files (fields self)) (output_dir (fields self))
              (negb (as_csv_var (fields self))))
    (out_var self) (listbox self) (status_var self)
    (import_btn self) (out_btn self) (export_btn self)
    (progress_maximum self) (progress_value self) (dialogs self).

(** One action of the user as [App().mainloop()] serves it, with the worker
    and its callbacks run to their end before the next action, and no action
    on a disabled button.  The worker is the thread that [on_export] starts;
    [Diverge] means that it is still running when the fuel is spent. *)
Definition mainloop_step (fuel : nat) (st : Outcome * (Window * gmap string File))
    (a : Action) : Outcome * (Window * gmap string File) :=
  match st with
  | (Return, (self, fs)) =>
      match a with
      | Import paths =>
          (Return, (if import_btn self then on_import paths self else self, fs))
      | ChooseOutput d =>
          (Return, (if out_btn self then on_choose_output d self else self, fs))
      | ToggleCsv => (Return, (toggle_csv self, fs))
      | ClickExport =>
          if export_btn self then
            match on_export self with
            | (self, true) =>
                let r := _export_worker fuel (fields self) fs in
                (r.1, (foldl run_callback self r.2.2, r.2.1))
            | (self, false) => (Return, (self, fs))
            end
          else (Return, (self, fs))
      end
  | stuck => stuck
  end.

(** [App().mainloop()] over the actions of a session. *)
Definition mainloop (fuel : nat) (actions : list Action)
    (fs : gmap string File) : Outcome * (Window * gmap string File) :=
  foldl (mainloop_step fuel) (Return, (App_init, fs)) actions.

(** * Properties *)

(** ** Notions the statements use *)

(** The row that one stored record decodes to under a header. *)
Definition decode (hdr : Las.Header) (r : Las.Record3) : Row :=
  [CNum (Las.scaled r.1.1 (Las.scale hdr).1.1 (Las.offset hdr).1.1);
   CNum (Las.scaled r.1.2 (Las.scale hdr).1.2 (Las.offset hdr).1.2);
   CNum (Las.scaled r.2 (Las.scale hdr).2 (Las.offset hdr).2)].

(** The decoded points of an input, in input order. *)
Definition decoded_rows (f : Las.LasFile) : list Row :=
  decode (Las.header f) <$> Las.records f.

(** The rows that one yielded chunk contributes to a sink. *)
Definition chunk_rows (c : Arrays) : list Row :=
  row_of <$> zip3 c.1.1 c.1.2 c.2.

(** The data rows of a workbook: every page without its first row, page
    after page. *)
Definition data_rows (wb : list Worksheet) : list Row :=
  wb ≫= (λ s, tail (rows s)).

(** The page titles of a paginated output, in page order. *)
Definition page_titles (o : option File) : list string :=
  match o with
  | Some (XlsxData sheets) => title <$> sheets
  | _ => []
  end.

(** [ceil(a / b)] for positive [b]. *)
Definition ceil_div (a b : Z) : Z := (a + b - 1) / b.

(** A well-formed input: the header's count is the number of records
    present. *)
Definition well_formed (f : Las.LasFile) : Prop :=
  Las.point_count (Las.header f) = Z.of_nat (length (Las.records f)).

(** A truncated input: the header declares more points than are present. *)
Definition truncated (f : Las.LasFile) : Prop :=
  Z.of_nat (length (Las.records f)) < Las.point_count (Las.header f).

(** What holds of the local variables of [export_las_to_excel] once the rows
    [written] have gone through the inner loop, for a page capacity [R]:
    [ws] is the last sheet created, [sheet_index] counts the sheets,
    [rows_in_sheet] is the length of the current sheet and lies between 1
    and [R], every earlier sheet is full, every sheet starts with the
    header, the titles are [Points_1], [Points_2], ... and the data rows
    are the rows written. *)
Definition excel_inv (R : Z) (written : list Row) (st : Excel) : Prop :=
  ∃ prev cur,
    wb st = prev ++ [cur]
    ∧ ws st = length prev
    ∧ sheet_index st = Z.of_nat (length prev) + 1
    ∧ rows_in_sheet st = Z.of_nat (length (rows cur))
    ∧ 1 ≤ rows_in_sheet st ≤ R
    ∧ (prev ≠ [] → 2 ≤ rows_in_sheet st)
    ∧ Forall (λ s, head (rows s) = Some HEADER) (wb st)
    ∧ Forall (λ s, Z.of_nat (length (rows s)) = R) prev
    ∧ title <$> wb st = sheet_title <$> seqZ 1 (sheet_index st)
    ∧ data_rows (wb st) = written.

(** ** Concrete inputs *)

(** A header declaring [n] points, with the scale 0.01 (its nearest
    binary64 value) and the offset 0 on every axis. *)
Definition sample_header (n : Z) : Las.Header :=
  Las.mkHeader n
    (0x1.47ae147ae147bp-7, 0x1.47ae147ae147bp-7, 0x1.47ae147ae147bp-7)%float
    (0, 0, 0)%float 12 0.

(** Three points, all present. *)
Definition sample_las : Las.LasFile :=
  Las.mkLas (sample_header 3) [(100, -250, 5000); (1, 2, 3); (4, 5, 6)].

(** Five points declared, one present. *)
Definition short_las : Las.LasFile :=
  Las.mkLas (sample_header 5) [(100, -250, 5000)].

(** No point. *)
Definition empty_las : Las.LasFile := Las.mkLas (sample_header 0) [].

(** As many points as one page has room for below its header. *)
Definition full_page_las : Las.LasFile :=
  Las.mkLas (sample_header (EXCEL_MAX_ROWS - 1))
    (replicate (Z.to_nat (EXCEL_MAX_ROWS - 1)) (0, 0, 0)).

Definition sample_fs : gmap string File :=
  {[ "a.las" := LasData sample_las ]}.

(** The point of the coordinate example: stored (100, -250, 5000). *)
Definition example_las : Las.LasFile :=
  Las.mkLas (sample_header 1) [(100, -250, 5000)].

(** One point under the scale 0.01 and the offsets 1000, 2000 and -5. *)
Definition offset_las : Las.LasFile :=
  Las.mkLas
    (Las.mkHeader 1
       (0x1.47ae147ae147bp-7, 0x1.47ae147ae147bp-7, 0x1.47ae147ae147bp-7)%float
       (1000, 2000, -5)%float 12 0)
    [(100, -250, 5000)].

(** Two sound inputs in one folder. *)
Definition pair_world : World :=
  mkWorld {[ "d/one.las" := LasData sample_las;
             "d/two.las" := LasData example_las ]} [].

(** A batch of two inputs in one folder: the first truncated, the second
    sound. *)
Definition batch_world : World :=
  mkWorld {[ "d/bad.las" := LasData short_las;
             "d/good.las" := LasData sample_las ]} [].

(** The data rows of the flat output for a given result of opening the
    input. *)
Definition flat_body (fuel : nat) (chunk_size : Z)
    (r : SourceError + Las.LasFile) : list Row :=
  match r with
  | inr reader =>
      match chunk_points fuel reader (Z.max 1 chunk_size) with
      | Some chunks => chunks ≫= chunk_rows
      | None => chunk_points_yielded fuel reader (Z.max 1 chunk_size) ≫= chunk_rows
      end
  | inl _ => []
  end.

(** The destination of the command-line loop for an input (lines 89-91). *)
Definition cli_out_path (las_path : string) : string :=
  OsPath.join (OsPath.dirname las_path)
    ((OsPath.splitext (OsPath.basename las_path)).1 +:+ ".csv").

(** The files after the exports of the command-line loop for the inputs
    [ps], one after the other, each to its destination. *)
Definition cli_exports (fuel : nat) (ps : list string) (fs : gmap string File)
    : gmap string File :=
  foldl (λ fs p, (export_las_to_csv fuel p (cli_out_path p) CHUNK_SIZE fs).2)
    fs ps.

(** The destination of the worker for an input (lines 176-180). *)
Definition worker_out_path (self : App) (las_path : string) : string :=
  let base := (OsPath.splitext (OsPath.basename las_path)).1 in
  let ext := if as_csv_var self then ".csv" else ".xlsx" in
  if bool_decide (output_dir self ≠ EmptyString)
  then OsPath.join (output_dir self) (base +:+ ext)
  else OsPath.join (OsPath.dirname las_path) (base +:+ ext).

(** Every .las file of the file system can be read within the fuel. *)
Definition las_within (fuel : nat) (fs : gmap string File) : Prop :=
  ∀ p f, fs !! p = Some (LasData f) → (length (Las.records f) ≤ fuel)%nat.

(** A string without a given character. *)
Fixpoint lacks (c : ascii) (s : string) : bool :=
  match s with
  | EmptyString => true
  | String a s' => negb (Ascii.eqb a c) && lacks c s'
  end.

(** The values of the [Progress] callbacks among scheduled callbacks, and
    the paths of the error boxes. *)
Definition progress_values (ui : list UiEvent) : list Z :=
  ui ≫= (λ ev, match ev with Progress v => [v] | _ => [] end).
Definition error_paths (ui : list UiEvent) : list string :=
  ui ≫= (λ ev, match ev with ShowError p _ => [p] | _ => [] end).

(** The error boxes that scheduled callbacks open. *)
Definition error_boxes (ui : list UiEvent) : list Dialog :=
  ui ≫= (λ ev, match ev with ShowError p e => [ShowErrorBox p e] | _ => [] end).

(** A window at rest: the three buttons enabled, the list box showing the
    selected files, the output field showing the output folder, or its
    placeholder when none is chosen. *)
Definition window_at_rest (self : Window) : Prop :=
  import_btn self = true ∧ out_btn self = true ∧ export_btn self = true
  ∧ listbox self = selected_files (fields self)
  ∧ out_var self
    = (if bool_decide (output_dir (fields self) = EmptyString)
       then "(same folder as input)" else output_dir (fields self)).

(** ** The reader *)

Lemma zip3_fmap {A B C D : Type} (f : D → A) (g : D → B) (h : D → C) (l : list D) :
  zip3 (f <$> l) (g <$> l) (h <$> l) = (λ d, (f d, g d, h d)) <$> l.
Proof.
  induction l as [|d l IH]; [done|].
  rewrite !fmap_cons. cbn [zip3]. by rewrite IH.
Qed.

Lemma chunk_iterator_some fuel hdr n (rest : list Las.Record3) :
  1 ≤ n → (length rest ≤ fuel)%nat →
  ∃ chunks, Las.chunk_iterator fuel hdr n rest = Some chunks
    ∧ chunks ≫= Las.pt_records = rest
    ∧ Forall (λ c, Las.pt_header c = hdr
                   ∧ (1 ≤ length (Las.pt_records c) ≤ Z.to_nat n)%nat) chunks.
Proof.
  intros Hn. revert rest.
  induction fuel as [|fuel IH]; intros rest Hlen.
  - destruct rest; simpl in *; [|lia]. exists []. by split_and!.
  - destruct rest as [|r rest]; [exists []; by split_and!|].
    destruct (IH (drop (Z.to_nat n) (r :: rest))) as (chunks & Hc & Hcat & Hall).
    { rewrite length_drop. simpl in *. lia. }
    exists (Las.mkPoints hdr (take (Z.to_nat n) (r :: rest)) :: chunks).
    split_and!.
    + cbn [Las.chunk_iterator]. by rewrite Hc.
    + rewrite bind_cons, Hcat. cbn [Las.pt_records]. apply take_drop.
    + constructor; [|done]. cbn [Las.pt_header Las.pt_records].
      split; [done|]. rewrite length_take. simpl. lia.
Qed.

Lemma chunk_rows_points (p : Las.Points) :
  chunk_rows (Las.x p, Las.y p, Las.z p) = decode (Las.pt_header p) <$> Las.pt_records p.
Proof.
  unfold chunk_rows, Las.x, Las.y, Las.z. cbn [fst snd].
  rewrite (zip3_fmap _ _ _ (Las.pt_records p)), <- list_fmap_compose.
  by apply list_fmap_ext.
Qed.

(** With a chunk size of at least 1 and one unit of fuel per record the
    generator finishes, and its chunks are the decoded points in order. *)
Lemma chunk_points_some fuel (f : Las.LasFile) n :
  1 ≤ n → (length (Las.records f) ≤ fuel)%nat →
  ∃ chunks, chunk_points fuel f n = Some chunks
    ∧ chunks ≫= chunk_rows = decoded_rows f.
Proof.
  intros Hn Hfuel. unfold chunk_points.
  destruct (chunk_iterator_some fuel (Las.header f) n (Las.records f) Hn Hfuel)
    as (chunks & -> & Hcat & Hall).
  eexists; split; [done|]. unfold decoded_rows. rewrite <- Hcat.
  clear Hcat. induction Hall as [|c chunks [Hh _] _ IH]; [done|].
  rewrite fmap_cons, !bind_cons, fmap_app, IH, chunk_rows_points, Hh. done.
Qed.

(** Whatever the generator hands out when it finishes is the records in
    order, each chunk under the header of the input. *)
Lemma chunk_iterator_sound fuel hdr n (rest : list Las.Record3) chunks :
  Las.chunk_iterator fuel hdr n rest = Some chunks →
  chunks ≫= Las.pt_records = rest
  ∧ Forall (λ c, Las.pt_header c = hdr) chunks.
Proof.
  revert rest chunks. induction fuel as [|fuel IH]; intros rest chunks Hrun.
  - destruct rest; [|done]. injection Hrun as <-. by split.
  - destruct rest as [|r rest]; [injection Hrun as <-; by split|].
    cbn [Las.chunk_iterator] in Hrun.
    destruct (Las.chunk_iterator fuel hdr n _) as [chunks'|] eqn:Hc; [|done].
    injection Hrun as <-. destruct (IH _ _ Hc) as [Hcat Hall]. split.
    + rewrite bind_cons, Hcat. cbn [Las.pt_records]. apply take_drop.
    + by constructor.
Qed.

Lemma chunks_rows_decoded hdr (chunks : list Las.Points) :
  Forall (λ c, Las.pt_header c = hdr) chunks →
  ((λ points, (Las.x points, Las.y points, Las.z points)) <$> chunks) ≫= chunk_rows
  = decode hdr <$> (chunks ≫= Las.pt_records).
Proof.
  induction 1 as [|c chunks Hh _ IH]; [done|].
  rewrite fmap_cons, !bind_cons, fmap_app, IH, chunk_rows_points, Hh. done.
Qed.

Lemma chunk_points_sound fuel (f : Las.LasFile) n chunks :
  chunk_points fuel f n = Some chunks → chunks ≫= chunk_rows = decoded_rows f.
Proof.
  unfold chunk_points.
  destruct (Las.chunk_iterator fuel _ n _) as [cs|] eqn:Hc; [|done].
  intros [= <-]. destruct (chunk_iterator_sound _ _ _ _ _ Hc) as [Hcat Hall].
  by rewrite (chunks_rows_decoded _ _ Hall), Hcat.
Qed.

(** A finished generator has yielded all its chunks. *)
Lemma chunks_yielded_some fuel hdr n (rest : list Las.Record3) chunks :
  Las.chunk_iterator fuel hdr n rest = Some chunks →
  Las.chunks_yielded fuel hdr n rest = chunks.
Proof.
  revert rest chunks. induction fuel as [|fuel IH]; intros rest chunks Hrun.
  - destruct rest; [|done]. by injection Hrun as <-.
  - destruct rest as [|r rest]; [by injection Hrun as <-|].
    cbn [Las.chunk_iterator] in Hrun. cbn [Las.chunks_yielded].
    destruct (Las.chunk_iterator fuel hdr n _) as [chunks'|] eqn:Hc; [|done].
    injection Hrun as <-. by rewrite (IH _ _ Hc).
Qed.

(** One unit of fuel yields one chunk: the chunks yielded hold the first
    [fuel * chunk_size] records. *)
Lemma chunks_yielded_records fuel hdr n (rest : list Las.Record3) :
  Las.chunks_yielded fuel hdr n rest ≫= Las.pt_records
    = take (fuel * Z.to_nat n) rest
  ∧ Forall (λ c, Las.pt_header c = hdr) (Las.chunks_yielded fuel hdr n rest).
Proof.
  revert rest. induction fuel as [|fuel IH]; intros rest.
  - destruct rest; by split.
  - destruct rest as [|r rest]; [by rewrite take_nil|].
    cbn [Las.chunks_yielded]. destruct (IH (drop (Z.to_nat n) (r :: rest))) as [Hcat Hall].
    split; [|by constructor].
    rewrite bind_cons, Hcat. cbn [Las.pt_records].
    by rewrite take_take_drop.
Qed.

(** With a chunk size of at least 1 the generator finishes exactly when the
    fuel covers the chunks. *)
Lemma chunk_iterator_fuel fuel hdr n (rest : list Las.Record3) :
  1 ≤ n →
  is_Some (Las.chunk_iterator fuel hdr n rest)
  ↔ (length rest ≤ fuel * Z.to_nat n)%nat.
Proof.
  intros Hn. revert rest. induction fuel as [|fuel IH]; intros rest.
  - destruct rest; simpl; [split; [lia|by eexists]|].
    split; [by intros [? ?]|lia].
  - destruct rest as [|r rest]; [simpl; split; [lia|by eexists]|].
    cbn [Las.chunk_iterator]. rewrite fmap_is_Some, IH, length_drop. lia.
Qed.

Lemma chunk_points_yielded_rows fuel (f : Las.LasFile) n :
  chunk_points_yielded fuel f n ≫= chunk_rows
  = take (fuel * Z.to_nat n) (decoded_rows f).
Proof.
  unfold chunk_points_yielded, decoded_rows.
  destruct (chunks_yielded_records fuel (Las.header f) n (Las.records f))
    as [Hcat Hall].
  by rewrite (chunks_rows_decoded _ _ Hall), Hcat, fmap_take.
Qed.

(** The generator never loops on a chunk size below 1 only because the
    clamp keeps such a size away from it: unclamped, no fuel suffices. *)
Lemma chunk_iterator_stuck fuel hdr n (rest : list Las.Record3) :
  n ≤ 0 → rest ≠ [] → Las.chunk_iterator fuel hdr n rest = None.
Proof.
  intros Hn Hrest. induction fuel as [|fuel IH]; destruct rest; try done.
  cbn [Las.chunk_iterator]. replace (Z.to_nat n) with 0%nat by lia.
  rewrite drop_0, IH. done.
Qed.

(** ** The paginated sink *)

Lemma ws_append_last (prev : list Worksheet) cur row :
  ws_append (length prev) row (prev ++ [cur])
  = prev ++ [mkSheet (title cur) (rows cur ++ [row])].
Proof.
  unfold ws_append.
  replace (length prev) with (length prev + 0)%nat at 1 by lia.
  by rewrite alter_app_r.
Qed.

Lemma data_rows_snoc (prev : list Worksheet) cur :
  data_rows (prev ++ [cur]) = data_rows prev ++ tail (rows cur).
Proof.
  unfold data_rows. rewrite bind_app. f_equal. cbn. by rewrite app_nil_r.
Qed.

Lemma length_tail_pred {A : Type} (l : list A) :
  length (tail l) = Nat.pred (length l).
Proof. by destruct l. Qed.

Lemma data_rows_full R (prev : list Worksheet) :
  Forall (λ s, Z.of_nat (length (rows s)) = R) prev →
  1 ≤ R →
  Z.of_nat (length (data_rows prev)) = Z.of_nat (length prev) * (R - 1).
Proof.
  intros Hall HR. induction Hall as [|s prev Hs _ IH]; [done|].
  unfold data_rows in *. rewrite bind_cons, length_app, length_tail_pred.
  cbn [length]. lia.
Qed.

Lemma excel_start_inv R : 1 ≤ R → excel_inv R [] excel_start.
Proof.
  intros HR. exists [], (mkSheet (sheet_title 1) [HEADER]).
  cbn. split_and!; try done; try lia.
  repeat constructor.
Qed.

Lemma excel_row_inv R written st row :
  2 ≤ R → excel_inv R written st →
  excel_inv R (written ++ [row]) (excel_row R st row).
Proof.
  intros HR (prev & cur & Hwb & Hws & Hidx & Hrows & Hbound & Hsecond
             & Hhead & Hfull & Htitles & Hdata).
  assert (Hcur : ∃ rest, rows cur = HEADER :: rest).
  { rewrite Hwb, Forall_app, Forall_singleton in Hhead. destruct Hhead as [_ Hc].
    destruct (rows cur) as [|h rest]; [done|]. simpl in Hc.
    exists rest. congruence. }
  destruct Hcur as [rest Hrest].
  unfold excel_row. case_bool_decide as Hfull_page.
  - (* the current sheet is full: a new sheet takes the row *)
    cbn [create_sheet wb ws sheet_index rows_in_sheet].
    rewrite (ws_append_last (wb st)), (ws_append_last (wb st)). cbn [title rows app].
    exists (wb st), (mkSheet (sheet_title (sheet_index st + 1)) [HEADER; row]).
    cbn [wb ws sheet_index rows_in_sheet title rows length].
    split_and!; try done; try lia.
    + rewrite Hwb, length_app. simpl. lia.
    + apply Forall_app. split; [done|]. by apply Forall_singleton.
    + rewrite Hwb. apply Forall_app. split; [done|].
      apply Forall_singleton. lia.
    + rewrite fmap_app, Htitles. cbn [fmap list_fmap title].
      replace (sheet_index st + 1) with (Z.of_nat (S (S (length prev)))) by lia.
      rewrite (seqZ_S 1 (S (length prev))), fmap_app.
      replace (sheet_index st) with (Z.of_nat (S (length prev))) by lia.
      cbn [fmap list_fmap]. do 3 f_equal. lia.
    + rewrite data_rows_snoc, Hdata. done.
  - (* the row goes to the current sheet *)
    rewrite Hwb, Hws, ws_append_last.
    exists prev, (mkSheet (title cur) (rows cur ++ [row])).
    cbn [wb ws sheet_index rows_in_sheet title rows].
    split_and!; try done; try lia.
    + rewrite length_app. simpl. lia.
    + rewrite Hwb in Hhead. apply Forall_app in Hhead as [Hp _].
      apply Forall_app. split; [done|]. apply Forall_singleton.
      cbn [rows]. by rewrite Hrest.
    + rewrite Hwb, !fmap_app in Htitles. by rewrite fmap_app.
    + rewrite data_rows_snoc. cbn [rows]. rewrite Hrest. cbn [app tail].
      rewrite <- Hdata, Hwb, data_rows_snoc, Hrest, <- app_assoc. done.
Qed.

Lemma excel_rows_inv R written st new :
  2 ≤ R → excel_inv R written st →
  excel_inv R (written ++ new) (foldl (excel_row R) st new).
Proof.
  intros HR. revert written st.
  induction new as [|row new IH]; intros written st Hinv.
  - by rewrite app_nil_r.
  - cbn [foldl]. replace (written ++ row :: new) with ((written ++ [row]) ++ new)
      by (by rewrite <- app_assoc).
    apply IH. by apply excel_row_inv.
Qed.

(** The invariant holds after any rows went through the loop from the start. *)
Lemma excel_run_inv R (written : list Row) :
  2 ≤ R → excel_inv R written (foldl (excel_row R) excel_start written).
Proof.
  intros HR. apply (excel_rows_inv R [] excel_start written HR).
  apply excel_start_inv. lia.
Qed.

Lemma EXCEL_MAX_ROWS_ge : 2 ≤ EXCEL_MAX_ROWS.
Proof. done. Qed.

(** The two nested loops are one loop over the rows of all chunks. *)
Lemma excel_loop_rows R st (chunks : list Arrays) :
  excel_loop R st chunks = foldl (excel_row R) st (chunks ≫= chunk_rows).
Proof.
  unfold excel_loop. revert st.
  induction chunks as [|c chunks IH]; intros st; [done|].
  rewrite bind_cons, foldl_app. cbn [foldl]. apply IH.
Qed.

(** The rows written are spread over full pages and the current page. *)
Lemma excel_inv_count R written st :
  1 ≤ R → excel_inv R written st →
  Z.of_nat (length written)
  = (sheet_index st - 1) * (R - 1) + (rows_in_sheet st - 1).
Proof.
  intros HR (prev & cur & Hwb & Hws & Hidx & Hrows & Hbound & Hsecond
             & Hhead & Hfull & Htitles & Hdata).
  rewrite <- Hdata, Hwb, data_rows_snoc, length_app, length_tail_pred.
  pose proof (data_rows_full R prev Hfull HR). lia.
Qed.

Lemma ceil_div_pages k r R :
  2 ≤ R → 0 ≤ k → 0 ≤ r ≤ R - 1 → (0 < k → 1 ≤ r) →
  k + 1 = Z.max 1 (ceil_div (k * (R - 1) + r) (R - 1)).
Proof.
  intros HR Hk Hr Hpos. unfold ceil_div.
  destruct (decide (r = 0)) as [->|Hr0].
  - assert (k = 0) as -> by lia.
    replace (0 * (R - 1) + 0 + (R - 1) - 1) with (R - 2) by lia.
    rewrite Z.div_small by lia. lia.
  - replace (k * (R - 1) + r + (R - 1) - 1)
      with ((k + 1) * (R - 1) + (r - 1)) by lia.
    rewrite Z.div_add_l, Z.div_small by lia. lia.
Qed.

Lemma excel_inv_pages R written st :
  2 ≤ R → excel_inv R written st →
  sheet_index st = Z.max 1 (ceil_div (Z.of_nat (length written)) (R - 1)).
Proof.
  intros HR Hinv. pose proof (excel_inv_count R written st ltac:(lia) Hinv) as Hn.
  destruct Hinv as (prev & cur & Hwb & Hws & Hidx & Hrows & Hbound & Hsecond & _).
  rewrite Hn.
  replace (sheet_index st) with ((sheet_index st - 1) + 1) at 1 by lia.
  apply ceil_div_pages; try lia.
  intros Hk. assert (prev ≠ []) as Hne by (destruct prev; [simpl in *; lia | done]).
  specialize (Hsecond Hne). lia.
Qed.

(** What the invariant says of the finished workbook. *)
Lemma excel_inv_sheets R written st :
  2 ≤ R → excel_inv R written st →
  Z.of_nat (length (wb st)) = sheet_index st
  ∧ Forall (λ s, 1 ≤ Z.of_nat (length (rows s)) ≤ R) (wb st)
  ∧ Forall (λ s, 2 ≤ Z.of_nat (length (rows s))) (tail (wb st))
  ∧ Forall (λ s, head (rows s) = Some HEADER) (wb st)
  ∧ (∃ cur, last (wb st) = Some cur
            ∧ Z.of_nat (length (rows cur)) = rows_in_sheet st)
  ∧ title <$> wb st = sheet_title <$> seqZ 1 (sheet_index st)
  ∧ data_rows (wb st) = written.
Proof.
  intros HR (prev & cur & Hwb & Hws & Hidx & Hrows & Hbound & Hsecond
             & Hhead & Hfull & Htitles & Hdata).
  split_and!; try done.
  - rewrite Hwb, length_app. simpl. lia.
  - rewrite Hwb. apply Forall_app. split.
    + eapply Forall_impl; [exact Hfull|]. simpl. intros s Hs. lia.
    + apply Forall_singleton. lia.
  - rewrite Hwb. destruct prev as [|p prev]; [by constructor|].
    cbn [app tail]. apply Forall_app. split.
    + apply Forall_cons in Hfull as [_ Hfull].
      eapply Forall_impl; [exact Hfull|]. simpl. intros s Hs. lia.
    + apply Forall_singleton. specialize (Hsecond ltac:(done)). lia.
  - exists cur. rewrite Hwb, last_snoc. done.
Qed.

(** ** The flat sink *)

Lemma csv_start path (fs : gmap string File) :
  writerow path HEADER (open_w path fs) = <[path := CsvData [HEADER]]> fs.
Proof.
  unfold writerow, writerows, open_w.
  by rewrite alter_insert_eq.
Qed.

Lemma csv_chunks path lines (fs : gmap string File) (chunks : list Arrays) :
  foldl (csv_chunk path) (<[path := CsvData lines]> fs) chunks
  = <[path := CsvData (lines ++ chunks ≫= chunk_rows)]> fs.
Proof.
  revert lines. induction chunks as [|c chunks IH]; intros lines.
  - by rewrite app_nil_r.
  - cbn [foldl]. unfold csv_chunk at 2, writerows.
    rewrite alter_insert_eq, IH, bind_cons, app_assoc. done.
Qed.

(** ** Opening the input *)

Lemma laspy_open_ext path (fs1 fs2 : gmap string File) :
  fs1 !! path = fs2 !! path → laspy_open path fs1 = laspy_open path fs2.
Proof. unfold laspy_open. by intros ->. Qed.

Lemma laspy_open_well_formed path (fs : gmap string File) f :
  fs !! path = Some (LasData f) → well_formed f → laspy_open path fs = inr f.
Proof.
  unfold laspy_open, well_formed. intros -> Hwf.
  rewrite !bool_decide_eq_false_2 by lia. done.
Qed.

Lemma laspy_open_truncated path (fs : gmap string File) f :
  fs !! path = Some (LasData f) → truncated f →
  laspy_open path fs = inl Truncated.
Proof.
  unfold laspy_open, truncated. intros -> Htr.
  by rewrite bool_decide_eq_true_2 by lia.
Qed.

(** A reader that opened has as many records as its header declares. *)
Lemma laspy_open_inr path (fs : gmap string File) f :
  laspy_open path fs = inr f → fs !! path = Some (LasData f) ∧ well_formed f.
Proof.
  unfold laspy_open, well_formed. destruct (fs !! path) as [[g| |]|]; try done.
  repeat case_bool_decide; try done. intros [= ->]. split; [done|lia].
Qed.

(** ** The two exports on an input that opens *)

Lemma export_csv_opened fuel las_path csv_path chunk_size
    (fs : gmap string File) f :
  fs !! las_path = Some (LasData f) → well_formed f → las_path ≠ csv_path →
  (length (Las.records f) ≤ fuel)%nat →
  export_las_to_csv fuel las_path csv_path chunk_size fs
  = (Return, <[csv_path := CsvData (HEADER :: decoded_rows f)]> fs).
Proof.
  intros Hf Hwf Hne Hfuel. unfold export_las_to_csv.
  rewrite csv_start.
  rewrite (laspy_open_well_formed las_path _ f); [|by rewrite lookup_insert_ne|done].
  destruct (chunk_points_some fuel f (Z.max 1 chunk_size)) as (chunks & -> & Hrows);
    [lia|done|].
  by rewrite csv_chunks, Hrows.
Qed.

(** The flat export of an input that opens, for any fuel: the rows of the
    chunks read within the fuel are in the file. *)
Lemma export_csv_within fuel las_path csv_path chunk_size
    (fs : gmap string File) f :
  fs !! las_path = Some (LasData f) → well_formed f → las_path ≠ csv_path →
  let n := (fuel * Z.to_nat (Z.max 1 chunk_size))%nat in
  export_las_to_csv fuel las_path csv_path chunk_size fs
  = (if bool_decide (length (Las.records f) ≤ n)%nat then Return else Diverge,
     <[csv_path := CsvData (HEADER :: take n (decoded_rows f))]> fs).
Proof.
  intros Hf Hwf Hne n. unfold export_las_to_csv. rewrite csv_start.
  rewrite (laspy_open_well_formed las_path _ f); [|by rewrite lookup_insert_ne|done].
  pose proof (chunk_iterator_fuel fuel (Las.header f) (Z.max 1 chunk_size)
                (Las.records f) ltac:(lia)) as Hfuel.
  destruct (chunk_points fuel f _) as [chunks|] eqn:Hc.
  - assert (Hle : (length (Las.records f) ≤ n)%nat).
    { apply Hfuel. unfold chunk_points in Hc.
      destruct (Las.chunk_iterator fuel _ _ _); [by eexists|done]. }
    rewrite bool_decide_eq_true_2 by done.
    rewrite csv_chunks, (chunk_points_sound _ _ _ _ Hc).
    rewrite take_ge; [done|]. unfold decoded_rows. by rewrite length_fmap.
  - assert (Hgt : ¬ (length (Las.records f) ≤ n)%nat).
    { intros Hle. apply Hfuel in Hle as [cs Hcs].
      unfold chunk_points in Hc. by rewrite Hcs in Hc. }
    rewrite bool_decide_eq_false_2 by done.
    by rewrite csv_chunks, chunk_points_yielded_rows.
Qed.

Lemma export_paginated_opened R fuel las_path xlsx_path chunk_size
    (fs : gmap string File) f :
  fs !! las_path = Some (LasData f) → well_formed f →
  (length (Las.records f) ≤ fuel)%nat →
  export_paginated R fuel las_path xlsx_path chunk_size fs
  = (Return,
     <[xlsx_path := XlsxData (wb (foldl (excel_row R) excel_start (decoded_rows f)))]> fs).
Proof.
  intros Hf Hwf Hfuel. unfold export_paginated.
  rewrite (laspy_open_well_formed las_path _ f) by done.
  destruct (chunk_points_some fuel f (Z.max 1 chunk_size)) as (chunks & -> & Hrows);
    [lia|done|].
  by rewrite excel_loop_rows, Hrows.
Qed.

Lemma decoded_rows_length f :
  well_formed f →
  Z.of_nat (length (decoded_rows f)) = Las.point_count (Las.header f).
Proof. unfold well_formed, decoded_rows. intros ->. by rewrite length_fmap. Qed.

(** * The claims *)

(** C1.  For every successful export, flat or paginated, the data rows
    written are the decoded input points in input order, none dropped,
    duplicated or reordered, and there are as many as the header's point
    count; the output is the same for every chunk size. *)
Theorem export_rows_in_input_order fuel las_path out_path chunk_size
    (fs : gmap string File) f :
  fs !! las_path = Some (LasData f) → well_formed f → las_path ≠ out_path →
  (length (Las.records f) ≤ fuel)%nat →
  export_las_to_csv fuel las_path out_path chunk_size fs
    = (Return, <[out_path := CsvData (HEADER :: decoded_rows f)]> fs)
  ∧ (∃ sheets,
       export_las_to_excel fuel las_path out_path chunk_size fs
         = (Return, <[out_path := XlsxData sheets]> fs)
       ∧ data_rows sheets = decoded_rows f)
  ∧ Z.of_nat (length (decoded_rows f)) = Las.point_count (Las.header f)
  ∧ (∀ chunk_size',
       export_las_to_csv fuel las_path out_path chunk_size' fs
         = export_las_to_csv fuel las_path out_path chunk_size fs
       ∧ export_las_to_excel fuel las_path out_path chunk_size' fs
         = export_las_to_excel fuel las_path out_path chunk_size fs).
Proof.
  intros Hf Hwf Hne Hfuel. split_and!.
  - by apply export_csv_opened.
  - eexists. split.
    + unfold export_las_to_excel. by apply export_paginated_opened.
    + pose proof (excel_run_inv _ (decoded_rows f) EXCEL_MAX_ROWS_ge) as Hinv.
      by destruct (excel_inv_sheets _ _ _ EXCEL_MAX_ROWS_ge Hinv) as (_&_&_&_&_&_&?).
  - by apply decoded_rows_length.
  - intros chunk_size'. unfold export_las_to_excel.
    by rewrite !(export_csv_opened fuel las_path out_path _ fs f),
               !(export_paginated_opened _ fuel las_path out_path _ fs f).
Qed.

Lemma export_rows_in_input_order_witness :
  sample_fs !! "a.las" = Some (LasData sample_las)
  ∧ well_formed sample_las
  ∧ "a.las" ≠ "a.csv"
  ∧ (length (Las.records sample_las) ≤ 3)%nat
  ∧ export_las_to_csv 3 "a.las" "a.csv" 2 sample_fs
    = (Return, <["a.csv" := CsvData (HEADER :: decoded_rows sample_las)]> sample_fs).
Proof.
  assert (H1 : sample_fs !! "a.las" = Some (LasData sample_las)) by reflexivity.
  assert (H2 : well_formed sample_las) by reflexivity.
  assert (H3 : "a.las" ≠ "a.csv") by discriminate.
  assert (H4 : (length (Las.records sample_las) ≤ 3)%nat) by (simpl; lia).
  split_and!; try assumption.
  exact (proj1 (export_rows_in_input_order 3 "a.las" "a.csv" 2 sample_fs
                  sample_las H1 H2 H3 H4)).
Defined.

(** ** One row at a page boundary and inside a page *)

Lemma excel_row_full R st row :
  R ≤ rows_in_sheet st →
  excel_row R st row
  = mkExcel (wb st ++ [mkSheet (sheet_title (sheet_index st + 1)) [HEADER; row]])
            (length (wb st)) (sheet_index st + 1) (1 + 1).
Proof.
  intros Hfull. unfold excel_row. rewrite bool_decide_eq_true_2 by done.
  cbn [create_sheet wb ws sheet_index rows_in_sheet].
  by rewrite !(ws_append_last (wb st)).
Qed.

Lemma excel_row_room R st row prev cur :
  wb st = prev ++ [cur] → ws st = length prev → rows_in_sheet st < R →
  excel_row R st row
  = mkExcel (prev ++ [mkSheet (title cur) (rows cur ++ [row])])
            (ws st) (sheet_index st) (rows_in_sheet st + 1).
Proof.
  intros Hwb Hws Hroom. unfold excel_row.
  rewrite bool_decide_eq_false_2 by lia.
  by rewrite Hwb, Hws, ws_append_last.
Qed.

Lemma sheet_title_inj : Inj (=) (=) sheet_title.
Proof.
  intros a b Hab. unfold sheet_title in Hab.
  apply (inj (String.app "Points_")) in Hab. by apply (inj pretty) in Hab.
Qed.

Lemma sheet_titles_NoDup n : NoDup (sheet_title <$> seqZ 1 n).
Proof. apply (@NoDup_fmap_2 _ _ sheet_title sheet_title_inj), NoDup_seqZ. Qed.

(** C3.  On a data-row write that finds the current page full, the sink
    allocates a new page whose title suffix is the next integer (titles
    Points_1, Points_2, ... from 1 on, without repetition), writes the
    header as its first row and the pending row as its second; no data row
    is lost or written twice at the boundary. *)
Theorem page_rollover R (written : list Row) (row : Row) :
  2 ≤ R →
  let st := foldl (excel_row R) excel_start written in
  let st' := excel_row R st row in
  R ≤ rows_in_sheet st →
  wb st' = wb st ++ [mkSheet (sheet_title (sheet_index st + 1)) [HEADER; row]]
  ∧ sheet_index st' = sheet_index st + 1
  ∧ rows_in_sheet st' = 2
  ∧ title <$> wb st = sheet_title <$> seqZ 1 (sheet_index st)
  ∧ title <$> wb st' = sheet_title <$> seqZ 1 (sheet_index st + 1)
  ∧ (title <$> wb st') !! 0%nat = Some "Points_1"
  ∧ NoDup (title <$> wb st')
  ∧ data_rows (wb st) = written
  ∧ data_rows (wb st') = written ++ [row].
Proof.
  intros HR st st' Hfull.
  pose proof (excel_run_inv R written HR) as Hinv. fold st in Hinv.
  pose proof (excel_row_inv R written st row HR Hinv) as Hinv'. fold st' in Hinv'.
  destruct (excel_inv_sheets _ _ _ HR Hinv) as (Hlen & _ & _ & _ & _ & Ht & Hd).
  destruct (excel_inv_sheets _ _ _ HR Hinv') as (_ & _ & _ & _ & _ & Ht' & Hd').
  assert (Hst' : st' = mkExcel
            (wb st ++ [mkSheet (sheet_title (sheet_index st + 1)) [HEADER; row]])
            (length (wb st)) (sheet_index st + 1) (1 + 1))
    by (by apply excel_row_full).
  assert (Hidx' : sheet_index st' = sheet_index st + 1) by (by rewrite Hst').
  rewrite Hidx' in Ht'.
  split_and!; try done.
  - by rewrite Hst'.
  - by rewrite Hst'.
  - rewrite Ht', seqZ_cons by lia. done.
  - rewrite Ht'. apply sheet_titles_NoDup.
Qed.

Lemma page_rollover_witness :
  2 ≤ 2
  ∧ 2 ≤ rows_in_sheet (foldl (excel_row 2) excel_start [[CNum 1]])
  ∧ wb (excel_row 2 (foldl (excel_row 2) excel_start [[CNum 1]]) [CNum 2])
    = [mkSheet "Points_1" [HEADER; [CNum 1]];
       mkSheet "Points_2" [HEADER; [CNum 2]]].
Proof.
  assert (H1 : 2 ≤ 2) by lia.
  assert (H2 : 2 ≤ rows_in_sheet (foldl (excel_row 2) excel_start [[CNum 1%float]]))
    by (vm_compute; discriminate).
  split_and!; try assumption.
  rewrite (proj1 (page_rollover 2 [[CNum 1%float]] [CNum 2%float] H1 H2)).
  reflexivity.
Defined.

(** C2, as the code has it.  For a page capacity [R] of at least 2 and [N]
    input points the paginated export creates [max 1 (ceil (N / (R - 1)))]
    pages; no page has more than [R] rows, header included; the last page
    has 1 row plus the points not placed on earlier pages; every page starts
    with the header row. *)
Theorem paginated_page_count R fuel las_path xlsx_path chunk_size
    (fs : gmap string File) f :
  2 ≤ R → fs !! las_path = Some (LasData f) → well_formed f →
  (length (Las.records f) ≤ fuel)%nat →
  ∃ sheets,
    export_paginated R fuel las_path xlsx_path chunk_size fs
      = (Return, <[xlsx_path := XlsxData sheets]> fs)
    ∧ Z.of_nat (length sheets)
      = Z.max 1 (ceil_div (Las.point_count (Las.header f)) (R - 1))
    ∧ Forall (λ s, Z.of_nat (length (rows s)) ≤ R) sheets
    ∧ (∃ final, last sheets = Some final
         ∧ Z.of_nat (length (rows final))
           = 1 + (Las.point_count (Las.header f)
                  - (Z.of_nat (length sheets) - 1) * (R - 1)))
    ∧ Forall (λ s, head (rows s) = Some HEADER) sheets.
Proof.
  intros HR Hf Hwf Hfuel.
  pose proof (excel_run_inv R (decoded_rows f) HR) as Hinv.
  assert (HR1 : 1 ≤ R) by lia.
  pose proof (excel_inv_count R _ _ HR1 Hinv) as Hcount.
  pose proof (excel_inv_pages _ _ _ HR Hinv) as Hpages.
  rewrite decoded_rows_length in Hcount, Hpages by done.
  destruct (excel_inv_sheets _ _ _ HR Hinv)
    as (Hlen & Hbound & _ & Hhead & (cur & Hlast & Hcur) & _ & _).
  eexists. split; [by apply export_paginated_opened|].
  split_and!; try done.
  - by rewrite Hlen.
  - eapply Forall_impl; [exact Hbound|]. simpl. intros s Hs. lia.
  - exists cur. split; [done|]. rewrite Hcur, Hlen. lia.
Qed.

Lemma paginated_page_count_witness :
  2 ≤ 3
  ∧ sample_fs !! "a.las" = Some (LasData sample_las)
  ∧ well_formed sample_las
  ∧ (length (Las.records sample_las) ≤ 3)%nat
  ∧ ∃ sheets,
      export_paginated 3 3 "a.las" "a.xlsx" 2 sample_fs
        = (Return, <["a.xlsx" := XlsxData sheets]> sample_fs)
      ∧ Z.of_nat (length sheets) = 2.
Proof.
  assert (H1 : 2 ≤ 3) by lia.
  assert (H2 : sample_fs !! "a.las" = Some (LasData sample_las)) by reflexivity.
  assert (H3 : well_formed sample_las) by reflexivity.
  assert (H4 : (length (Las.records sample_las) ≤ 3)%nat) by (simpl; lia).
  split_and!; try assumption.
  destruct (paginated_page_count 3 3 "a.las" "a.xlsx" 2 sample_fs sample_las
              H1 H2 H3 H4) as (sheets & Hrun & Hpages & _).
  exists sheets. split; [exact Hrun | exact Hpages].
Defined.

Lemma full_page_las_well_formed : well_formed full_page_las.
Proof.
  unfold well_formed, full_page_las. cbn [Las.header Las.records].
  rewrite length_replicate. unfold sample_header, EXCEL_MAX_ROWS.
  cbn [Las.point_count]. lia.
Qed.

(** C2, as stated, fails: with as many points as one page holds below its
    header, [N = R - 1], the export creates one page, where
    [ceil ((N + 1) / (R - 1))] is 2. *)
Lemma page_count_formula_counterexample :
  ∃ sheets,
    export_las_to_excel (Z.to_nat (EXCEL_MAX_ROWS - 1)) "in.las" "out.xlsx"
        CHUNK_SIZE {[ "in.las" := LasData full_page_las ]}
      = (Return,
         <["out.xlsx" := XlsxData sheets]> {[ "in.las" := LasData full_page_las ]})
    ∧ Z.of_nat (length sheets) = 1
    ∧ ceil_div (Las.point_count (Las.header full_page_las) + 1)
               (EXCEL_MAX_ROWS - 1) = 2.
Proof.
  pose proof full_page_las_well_formed as Hwf.
  assert (Hfuel : (length (Las.records full_page_las)
                   ≤ Z.to_nat (EXCEL_MAX_ROWS - 1))%nat).
  { unfold full_page_las. cbn [Las.records]. by rewrite length_replicate. }
  pose proof (excel_run_inv _ (decoded_rows full_page_las) EXCEL_MAX_ROWS_ge)
    as Hinv.
  pose proof (excel_inv_pages _ _ _ EXCEL_MAX_ROWS_ge Hinv) as Hpages.
  rewrite (decoded_rows_length _ Hwf) in Hpages.
  destruct (excel_inv_sheets _ _ _ EXCEL_MAX_ROWS_ge Hinv) as (Hlen & _).
  eexists. split_and!.
  - unfold export_las_to_excel.
    exact (export_paginated_opened _ _ _ _ _ _ _
             (lookup_singleton_eq _ _) Hwf Hfuel).
  - rewrite Hlen, Hpages. reflexivity.
  - reflexivity.
Qed.

(** C10.  In every paginated export the row count of the current page,
    header included, stays between 1 and [EXCEL_MAX_ROWS] after every row
    written and is the length of that page; a page is allocated only by a
    data-row write, which puts the row on it at once; hence every page after
    the first holds a data row, and once a row has been written the last
    page is not header-only. *)
Theorem rows_in_sheet_bounded (written : list Row) (row : Row) :
  let st := foldl (excel_row EXCEL_MAX_ROWS) excel_start written in
  let st' := excel_row EXCEL_MAX_ROWS st row in
  1 ≤ rows_in_sheet st ≤ EXCEL_MAX_ROWS
  ∧ (∃ cur, last (wb st) = Some cur
            ∧ Z.of_nat (length (rows cur)) = rows_in_sheet st
            ∧ (written ≠ [] → 2 ≤ rows_in_sheet st))
  ∧ Forall (λ s, 1 ≤ Z.of_nat (length (rows s)) ≤ EXCEL_MAX_ROWS) (wb st)
  ∧ Forall (λ s, 2 ≤ Z.of_nat (length (rows s))) (tail (wb st))
  ∧ (length (wb st') = length (wb st)
     ∨ wb st' = wb st ++ [mkSheet (sheet_title (sheet_index st + 1)) [HEADER; row]])
  ∧ (∃ cur', last (wb st') = Some cur' ∧ last (rows cur') = Some row).
Proof.
  intros st st'.
  pose proof (excel_run_inv _ written EXCEL_MAX_ROWS_ge) as Hinv. fold st in Hinv.
  assert (HR1 : 1 ≤ EXCEL_MAX_ROWS) by done.
  pose proof (excel_inv_count EXCEL_MAX_ROWS _ _ HR1 Hinv) as Hcount.
  destruct (excel_inv_sheets _ _ _ EXCEL_MAX_ROWS_ge Hinv)
    as (_ & Hall & Htail & _ & (c & Hc & Hclen) & _ & _).
  destruct Hinv as (prev & cur & Hwb & Hws & Hidx & Hrows & Hbound & Hsecond & _).
  split_and!; try done; try lia.
  - exists c. split_and!; try done. intros Hne.
    destruct (decide (prev = [])) as [->|Hprev]; [|by apply Hsecond].
    simpl in Hidx. destruct written; [done|]. simpl in Hcount. lia.
  - destruct (decide (EXCEL_MAX_ROWS ≤ rows_in_sheet st)) as [Hfull|Hroom].
    + right. subst st'. by rewrite excel_row_full.
    + left. subst st'. rewrite (excel_row_room _ _ _ prev cur) by (done || lia).
      cbn [wb]. by rewrite Hwb, !length_app.
  - destruct (decide (EXCEL_MAX_ROWS ≤ rows_in_sheet st)) as [Hfull|Hroom].
    + subst st'. rewrite excel_row_full by done. cbn [wb].
      eexists. by rewrite last_snoc.
    + subst st'. rewrite (excel_row_room _ _ _ prev cur) by (done || lia).
      cbn [wb]. eexists. rewrite last_snoc. split; [done|].
      cbn [rows]. by rewrite last_snoc.
Qed.

(** C5.  An input with zero points gives exactly one file (flat) or one
    page (paginated) whose only row is the header row. *)
Theorem zero_points_header_only fuel las_path out_path chunk_size
    (fs : gmap string File) f :
  fs !! las_path = Some (LasData f) → well_formed f →
  Las.point_count (Las.header f) = 0 → las_path ≠ out_path →
  export_las_to_csv fuel las_path out_path chunk_size fs
    = (Return, <[out_path := CsvData [HEADER]]> fs)
  ∧ export_las_to_excel fuel las_path out_path chunk_size fs
    = (Return, <[out_path := XlsxData [mkSheet "Points_1" [HEADER]]]> fs).
Proof.
  intros Hf Hwf Hzero Hne.
  assert (Hrec : Las.records f = []).
  { unfold well_formed in Hwf. rewrite Hzero in Hwf.
    destruct (Las.records f); [done|]. simpl in Hwf. lia. }
  assert (Hfuel : (length (Las.records f) ≤ fuel)%nat)
    by (rewrite Hrec; simpl; lia).
  assert (Hrows : decoded_rows f = []) by (unfold decoded_rows; by rewrite Hrec).
  split.
  - by rewrite (export_csv_opened fuel las_path out_path _ fs f), Hrows.
  - unfold export_las_to_excel.
    by rewrite (export_paginated_opened _ fuel las_path out_path _ fs f), Hrows.
Qed.

Lemma zero_points_header_only_witness :
  ({[ "e.las" := LasData empty_las ]} : gmap string File) !! "e.las"
    = Some (LasData empty_las)
  ∧ well_formed empty_las
  ∧ Las.point_count (Las.header empty_las) = 0
  ∧ "e.las" ≠ "e.csv"
  ∧ export_las_to_csv 0 "e.las" "e.csv" CHUNK_SIZE {[ "e.las" := LasData empty_las ]}
    = (Return, <["e.csv" := CsvData [HEADER]]> {[ "e.las" := LasData empty_las ]}).
Proof.
  assert (H1 : ({[ "e.las" := LasData empty_las ]} : gmap string File) !! "e.las"
               = Some (LasData empty_las)) by reflexivity.
  assert (H2 : well_formed empty_las) by reflexivity.
  assert (H3 : Las.point_count (Las.header empty_las) = 0) by reflexivity.
  assert (H4 : "e.las" ≠ "e.csv") by discriminate.
  split_and!; try assumption.
  exact (proj1 (zero_points_header_only 0 "e.las" "e.csv" CHUNK_SIZE _ empty_las
                  H1 H2 H3 H4)).
Defined.

(** ** A truncated input *)

(** C4, as the code has it.  An export from a truncated input raises the
    reader's Truncated error; the paginated export then writes no file at
    all, and the flat export leaves a closed file that holds the header row
    only. *)
Theorem truncated_input_outputs fuel las_path out_path chunk_size
    (fs : gmap string File) f :
  fs !! las_path = Some (LasData f) → truncated f → las_path ≠ out_path →
  export_las_to_csv fuel las_path out_path chunk_size fs
    = (Raise Truncated, <[out_path := CsvData [HEADER]]> fs)
  ∧ export_las_to_excel fuel las_path out_path chunk_size fs
    = (Raise Truncated, fs).
Proof.
  intros Hf Htr Hne. split.
  - unfold export_las_to_csv. rewrite csv_start.
    by rewrite (laspy_open_truncated las_path _ f);
      [|by rewrite lookup_insert_ne|].
  - unfold export_las_to_excel, export_paginated.
    by rewrite (laspy_open_truncated las_path _ f).
Qed.

Lemma truncated_input_outputs_witness :
  ({[ "t.las" := LasData short_las ]} : gmap string File) !! "t.las"
    = Some (LasData short_las)
  ∧ truncated short_las
  ∧ "t.las" ≠ "t.out"
  ∧ export_las_to_excel 1 "t.las" "t.out" CHUNK_SIZE {[ "t.las" := LasData short_las ]}
    = (Raise Truncated, {[ "t.las" := LasData short_las ]}).
Proof.
  assert (H1 : ({[ "t.las" := LasData short_las ]} : gmap string File) !! "t.las"
               = Some (LasData short_las)) by reflexivity.
  assert (H2 : truncated short_las) by (unfold truncated; simpl; lia).
  assert (H3 : "t.las" ≠ "t.out") by discriminate.
  split_and!; try assumption.
  exact (proj2 (truncated_input_outputs 1 "t.las" "t.out" CHUNK_SIZE _ short_las
                  H1 H2 H3)).
Defined.

(** C4, as stated, fails: the flat export of a truncated input leaves an
    output file, and the paginated export of the same input leaves none, so
    neither of the two policies is followed by both. *)
Lemma truncated_input_counterexample :
  truncated short_las
  ∧ ({[ "t.las" := LasData short_las ]} : gmap string File) !! "t.csv" = None
  ∧ (export_las_to_csv 1 "t.las" "t.csv" CHUNK_SIZE
       {[ "t.las" := LasData short_las ]}).1 = Raise Truncated
  ∧ (export_las_to_csv 1 "t.las" "t.csv" CHUNK_SIZE
       {[ "t.las" := LasData short_las ]}).2 !! "t.csv" = Some (CsvData [HEADER])
  ∧ (export_las_to_excel 1 "t.las" "t.xlsx" CHUNK_SIZE
       {[ "t.las" := LasData short_las ]}).2 !! "t.xlsx" = None.
Proof.
  split_and!; [unfold truncated; simpl; lia | reflexivity..].
Qed.

(** ** Termination under the clamp *)

Lemma export_csv_terminates fuel las_path csv_path chunk_size
    (fs : gmap string File) :
  (∀ f, fs !! las_path = Some (LasData f) → (length (Las.records f) ≤ fuel)%nat) →
  (export_las_to_csv fuel las_path csv_path chunk_size fs).1 ≠ Diverge.
Proof.
  intros Hfuel. unfold export_las_to_csv. rewrite csv_start.
  destruct (laspy_open las_path _) as [e|f] eqn:Hopen; [done|].
  apply laspy_open_inr in Hopen as [Hf Hwf].
  destruct (decide (csv_path = las_path)) as [->|Hne].
  { by rewrite lookup_insert_eq in Hf. }
  rewrite lookup_insert_ne in Hf by done.
  destruct (chunk_points_some fuel f (Z.max 1 chunk_size)) as (chunks & -> & _);
    [lia|by apply Hfuel|done].
Qed.

Lemma export_paginated_terminates R fuel las_path xlsx_path chunk_size
    (fs : gmap string File) :
  (∀ f, fs !! las_path = Some (LasData f) → (length (Las.records f) ≤ fuel)%nat) →
  (export_paginated R fuel las_path xlsx_path chunk_size fs).1 ≠ Diverge.
Proof.
  intros Hfuel. unfold export_paginated.
  destruct (laspy_open las_path _) as [e|f] eqn:Hopen; [done|].
  apply laspy_open_inr in Hopen as [Hf Hwf].
  destruct (chunk_points_some fuel f (Z.max 1 chunk_size)) as (chunks & -> & _);
    [lia|by apply Hfuel|done].
Qed.

(** C9.  Whatever the chunk size argument, zero and negative values
    included, the export runs with the size [max 1 chunk_size] (so a size
    below 1 behaves as the size 1) and, given enough fuel, comes to an end:
    it returns or raises, and is never left running.  With a size below 1
    an input that opens is exported one record per chunk: after [fuel]
    chunks the flat file holds the header and the first [fuel] points, the
    export returns as soon as the fuel covers the records, and both sinks
    then hold every point. *)
Theorem chunk_size_clamped las_path out_path chunk_size (fs : gmap string File) :
  (∀ fuel, chunk_size ≤ 1 →
     export_las_to_csv fuel las_path out_path chunk_size fs
       = export_las_to_csv fuel las_path out_path 1 fs
     ∧ export_las_to_excel fuel las_path out_path chunk_size fs
       = export_las_to_excel fuel las_path out_path 1 fs)
  ∧ (∃ fuel0, ∀ fuel, (fuel0 ≤ fuel)%nat →
      (export_las_to_csv fuel las_path out_path chunk_size fs).1 ≠ Diverge
      ∧ (export_las_to_excel fuel las_path out_path chunk_size fs).1 ≠ Diverge)
  ∧ (∀ fuel f,
       chunk_size ≤ 0 →
       fs !! las_path = Some (LasData f) → well_formed f →
       las_path ≠ out_path →
       export_las_to_csv fuel las_path out_path chunk_size fs
         = (if bool_decide (length (Las.records f) ≤ fuel)%nat
            then Return else Diverge,
            <[out_path := CsvData (HEADER :: take fuel (decoded_rows f))]> fs)
       ∧ ((length (Las.records f) ≤ fuel)%nat →
          export_las_to_csv fuel las_path out_path chunk_size fs
            = (Return, <[out_path := CsvData (HEADER :: decoded_rows f)]> fs)
          ∧ ∃ sheets,
              export_las_to_excel fuel las_path out_path chunk_size fs
                = (Return, <[out_path := XlsxData sheets]> fs)
              ∧ data_rows sheets = decoded_rows f)).
Proof.
  split_and!.
  - intros fuel Hle. unfold export_las_to_csv, export_las_to_excel, export_paginated.
    by replace (Z.max 1 chunk_size) with (Z.max 1 1) by lia.
  - exists (match fs !! las_path with
            | Some (LasData f) => length (Las.records f)
            | _ => O
            end).
    intros fuel Hfuel. split.
    + apply export_csv_terminates. intros f Hf. by rewrite Hf in Hfuel.
    + apply export_paginated_terminates. intros f Hf. by rewrite Hf in Hfuel.
  - intros fuel f Hle Hf Hwf Hne. split; [|intros Hfuel; split].
    + rewrite (export_csv_within fuel las_path out_path chunk_size fs f Hf Hwf Hne).
      replace (Z.max 1 chunk_size) with 1 by lia.
      change (Z.to_nat 1) with 1%nat. by rewrite Nat.mul_1_r.
    + by apply export_csv_opened.
    + eexists. split.
      * by apply (export_paginated_opened EXCEL_MAX_ROWS _ _ _ _ _ f).
      * pose proof (excel_run_inv EXCEL_MAX_ROWS (decoded_rows f) EXCEL_MAX_ROWS_ge)
          as Hinv.
        by destruct Hinv as (prev & cur & _ & _ & _ & _ & _ & _ & _ & _ & _ & Hdata).
Qed.

Lemma chunk_size_clamped_witness :
  -5 ≤ 0
  ∧ sample_fs !! "a.las" = Some (LasData sample_las)
  ∧ well_formed sample_las
  ∧ "a.las" ≠ "a.csv"
  ∧ export_las_to_csv 2 "a.las" "a.csv" (-5) sample_fs
    = (Diverge,
       <["a.csv" := CsvData (HEADER :: take 2 (decoded_rows sample_las))]> sample_fs)
  ∧ export_las_to_csv 3 "a.las" "a.csv" 0 sample_fs
    = (Return, <["a.csv" := CsvData (HEADER :: decoded_rows sample_las)]> sample_fs).
Proof.
  assert (H0 : -5 ≤ 0) by lia.
  assert (H0' : 0 ≤ 0) by lia.
  assert (H1 : sample_fs !! "a.las" = Some (LasData sample_las)) by reflexivity.
  assert (H2 : well_formed sample_las) by reflexivity.
  assert (H3 : "a.las" ≠ "a.csv") by discriminate.
  assert (H4 : (length (Las.records sample_las) ≤ 3)%nat) by (simpl; lia).
  split_and!; try assumption.
  - exact (proj1 (proj2 (proj2 (chunk_size_clamped "a.las" "a.csv" (-5) sample_fs))
                    2%nat sample_las H0 H1 H2 H3)).
  - exact (proj1 (proj2 (proj2 (proj2 (chunk_size_clamped "a.las" "a.csv" 0 sample_fs))
                           3%nat sample_las H0' H1 H2 H3) H4)).
Defined.

(** ** Two runs *)

Lemma laspy_open_csv path (fs : gmap string File) lines :
  fs !! path = Some (CsvData lines) → laspy_open path fs = inl Malformed.
Proof. unfold laspy_open. by intros ->. Qed.

Lemma laspy_open_missing path (fs : gmap string File) :
  fs !! path = None → laspy_open path fs = inl Io.
Proof. unfold laspy_open. by intros ->. Qed.

(** The flat export always leaves the header and the body that the opened
    input gives. *)
Lemma export_csv_files fuel las_path csv_path chunk_size (fs : gmap string File) :
  (export_las_to_csv fuel las_path csv_path chunk_size fs).2
  = <[csv_path :=
        CsvData (HEADER :: flat_body fuel chunk_size
                   (laspy_open las_path (<[csv_path := CsvData [HEADER]]> fs)))]> fs.
Proof.
  unfold export_las_to_csv. rewrite csv_start.
  destruct (laspy_open las_path _) as [e|f]; [done|]. cbn [flat_body].
  destruct (chunk_points fuel f _) as [chunks|]; cbn [snd]; by rewrite csv_chunks.
Qed.

(** The paginated export touches at most its destination. *)
Lemma export_paginated_files R fuel las_path xlsx_path chunk_size
    (fs : gmap string File) :
  (export_paginated R fuel las_path xlsx_path chunk_size fs).2 = fs
  ∨ ∃ f sheets,
      laspy_open las_path fs = inr f
      ∧ chunk_points fuel f (Z.max 1 chunk_size) ≫= (λ chunks,
          Some (wb (excel_loop R excel_start chunks))) = Some sheets
      ∧ (export_paginated R fuel las_path xlsx_path chunk_size fs).2
        = <[xlsx_path := XlsxData sheets]> fs.
Proof.
  unfold export_paginated.
  destruct (laspy_open las_path fs) as [e|f]; [by left|].
  destruct (chunk_points fuel f _) as [chunks|] eqn:Hc; [|by left].
  right. exists f, (wb (excel_loop R excel_start chunks)). by rewrite Hc.
Qed.

(** C7.  Running the same export twice, each time to a fresh destination,
    gives the same flat file both times and the same workbook, hence the
    same sequence of page titles, both times. *)
Theorem export_twice_same_output fuel las_path out1 out2 chunk_size
    (fs : gmap string File) :
  fs !! out1 = None → fs !! out2 = None → out1 ≠ out2 →
  let csv1 := export_las_to_csv fuel las_path out1 chunk_size fs in
  let csv2 := export_las_to_csv fuel las_path out2 chunk_size csv1.2 in
  let xl1 := export_las_to_excel fuel las_path out1 chunk_size fs in
  let xl2 := export_las_to_excel fuel las_path out2 chunk_size xl1.2 in
  (∃ body, csv1.2 !! out1 = Some (CsvData (HEADER :: body)))
  ∧ csv2.2 !! out2 = csv1.2 !! out1
  ∧ xl2.2 !! out2 = xl1.2 !! out1
  ∧ page_titles (xl2.2 !! out2) = page_titles (xl1.2 !! out1).
Proof.
  intros Hfresh1 Hfresh2 Hne csv1 csv2 xl1 xl2.
  assert (Hxl : xl2.2 !! out2 = xl1.2 !! out1).
  { subst xl1 xl2. unfold export_las_to_excel.
    destruct (export_paginated_files EXCEL_MAX_ROWS fuel las_path out1 chunk_size fs)
      as [Hsame|(f & sheets & Hopen & Hrun & Hfiles)].
    - (* the first run wrote nothing: the second sees the same files *)
      rewrite Hsame.
      destruct (export_paginated_files EXCEL_MAX_ROWS fuel las_path out2 chunk_size fs)
        as [Hsame2|(f & sheets & Hopen & Hrun & Hfiles2)].
      + by rewrite Hsame2, Hfresh1, Hfresh2.
      + exfalso. revert Hsame. unfold export_paginated. rewrite Hopen.
        destruct (chunk_points fuel f _) as [chunks|]; [|done].
        cbn [snd]. intros Heq.
        assert (Hl : (<[out1:=XlsxData (wb (excel_loop EXCEL_MAX_ROWS excel_start chunks))]> fs)
                     !! out1 = fs !! out1) by (by rewrite Heq).
        by rewrite lookup_insert_eq, Hfresh1 in Hl.
    - (* the first run wrote its workbook: the input is as it was *)
      rewrite Hfiles, lookup_insert_eq.
      assert (Hlas : las_path ≠ out1).
      { intros ->. apply laspy_open_inr in Hopen as [Hf _]. congruence. }
      destruct (export_paginated_files EXCEL_MAX_ROWS fuel las_path out2 chunk_size
                  (<[out1:=XlsxData sheets]> fs))
        as [Hsame2|(f2 & sheets2 & Hopen2 & Hrun2 & Hfiles2)].
      + exfalso. revert Hsame2. unfold export_paginated.
        rewrite (laspy_open_ext las_path _ fs) by (by rewrite lookup_insert_ne).
        rewrite Hopen. destruct (chunk_points fuel f _) as [chunks|]; [|done].
        cbn [snd]. intros Heq.
        assert (Hl : (<[out2:=XlsxData (wb (excel_loop EXCEL_MAX_ROWS excel_start chunks))]>
                        (<[out1:=XlsxData sheets]> fs)) !! out2
                     = (<[out1:=XlsxData sheets]> fs) !! out2) by (by rewrite Heq).
        by rewrite lookup_insert_eq, lookup_insert_ne, Hfresh2 in Hl.
      + rewrite Hfiles2, lookup_insert_eq.
        rewrite (laspy_open_ext las_path _ fs) in Hopen2
          by (by rewrite lookup_insert_ne).
        rewrite Hopen in Hopen2. injection Hopen2 as <-. congruence. }
  split_and!; [| |done|by rewrite Hxl].
  - subst csv1. rewrite export_csv_files, lookup_insert_eq. by eexists.
  - subst csv1 csv2. rewrite !export_csv_files, !lookup_insert_eq.
    do 3 f_equal.
    set (body1 := flat_body fuel chunk_size
                    (laspy_open las_path (<[out1:=CsvData [HEADER]]> fs))).
    destruct (decide (las_path = out1)) as [->|Hlas1].
    { subst body1.
      rewrite (laspy_open_csv out1 (<[out1:=_]> fs) [HEADER])
        by apply lookup_insert_eq.
      rewrite (laspy_open_csv out1 _ [HEADER]); [done|].
      by rewrite lookup_insert_ne, lookup_insert_eq. }
    destruct (decide (las_path = out2)) as [->|Hlas2].
    { subst body1.
      rewrite (laspy_open_missing out2 (<[out1:=_]> fs))
        by (by rewrite lookup_insert_ne).
      by rewrite (laspy_open_csv out2 _ [HEADER]) by apply lookup_insert_eq. }
    subst body1. f_equal. apply laspy_open_ext.
    by rewrite !lookup_insert_ne.
Qed.

Lemma export_twice_same_output_witness :
  sample_fs !! "run1.out" = None
  ∧ sample_fs !! "run2.out" = None
  ∧ "run1.out" ≠ "run2.out"
  ∧ (export_las_to_csv 3 "a.las" "run2.out" 2
       (export_las_to_csv 3 "a.las" "run1.out" 2 sample_fs).2).2 !! "run2.out"
    = (export_las_to_csv 3 "a.las" "run1.out" 2 sample_fs).2 !! "run1.out".
Proof.
  assert (H1 : sample_fs !! "run1.out" = None) by reflexivity.
  assert (H2 : sample_fs !! "run2.out" = None) by reflexivity.
  assert (H3 : "run1.out" ≠ "run2.out") by discriminate.
  split_and!; try assumption.
  exact (proj1 (proj2 (export_twice_same_output 3 "a.las" "run1.out" "run2.out" 2
                         sample_fs H1 H2 H3))).
Defined.

(** ** Coordinates *)

(** C6.  Every output coordinate is the stored integer times the scale
    plus the offset of its own axis, one binary64 multiplication and one
    binary64 addition, and the sinks receive it as it is.  This holds of
    the attributes of every chunk, of everything [chunk_points] yields for
    an input, and of both exports: for every input that opens, the flat
    file holds the header and, point for point, these three values, and
    the data rows of the workbook are the same rows.  With the scale 0.01
    and the offset 0 on every axis the stored triple (100, -250, 5000) comes
    out as (1.00, -2.50, 50.00). *)
Theorem coordinates_scaled_per_axis :
  let out (h : Las.Header) (r : Las.Record3) : Row :=
    [CNum (PrimFloat.add (PrimFloat.mul (Las.float_of_Z r.1.1)
                            (Las.scale h).1.1) (Las.offset h).1.1);
     CNum (PrimFloat.add (PrimFloat.mul (Las.float_of_Z r.1.2)
                            (Las.scale h).1.2) (Las.offset h).1.2);
     CNum (PrimFloat.add (PrimFloat.mul (Las.float_of_Z r.2)
                            (Las.scale h).2) (Las.offset h).2)] in
  (∀ p : Las.Points,
     chunk_rows (Las.x p, Las.y p, Las.z p)
     = out (Las.pt_header p) <$> Las.pt_records p)
  ∧ (∀ fuel f n chunks,
       chunk_points fuel f n = Some chunks →
       chunks ≫= (λ c, row_of <$> zip3 c.1.1 c.1.2 c.2)
       = out (Las.header f) <$> Las.records f)
  ∧ (∀ fuel las_path out_path chunk_size (fs : gmap string File) f,
       fs !! las_path = Some (LasData f) → well_formed f →
       las_path ≠ out_path → (length (Las.records f) ≤ fuel)%nat →
       export_las_to_csv fuel las_path out_path chunk_size fs
         = (Return,
            <[out_path := CsvData (HEADER :: (out (Las.header f) <$> Las.records f))]> fs)
       ∧ ∃ sheets,
           export_las_to_excel fuel las_path out_path chunk_size fs
             = (Return, <[out_path := XlsxData sheets]> fs)
           ∧ data_rows sheets = out (Las.header f) <$> Las.records f)
  ∧ chunk_points 1 example_las 1 = Some [([1], [-2.5], [50])%float]
  ∧ (export_las_to_csv 1 "p.las" "p.csv" CHUNK_SIZE
       {[ "p.las" := LasData example_las ]}).2 !! "p.csv"
    = Some (CsvData [HEADER; [CNum 1; CNum (-2.5); CNum 50]])
  ∧ (export_las_to_excel 1 "p.las" "p.xlsx" CHUNK_SIZE
       {[ "p.las" := LasData example_las ]}).2 !! "p.xlsx"
    = Some (XlsxData [mkSheet "Points_1" [HEADER; [CNum 1; CNum (-2.5); CNum 50]]]).
Proof.
  intros out. split_and!; [| | |reflexivity..].
  - intros p. by rewrite chunk_rows_points.
  - intros fuel f n chunks Hc. exact (chunk_points_sound fuel f n chunks Hc).
  - intros fuel las_path out_path chunk_size fs f Hf Hwf Hne Hfuel. split.
    + exact (export_csv_opened fuel las_path out_path chunk_size fs f Hf Hwf Hne Hfuel).
    + eexists. split.
      * by apply (export_paginated_opened EXCEL_MAX_ROWS _ _ _ _ _ f).
      * pose proof (excel_run_inv EXCEL_MAX_ROWS (decoded_rows f) EXCEL_MAX_ROWS_ge)
          as Hinv.
        by destruct Hinv as (prev & cur & _ & _ & _ & _ & _ & _ & _ & _ & _ & Hdata).
Qed.

Lemma coordinates_scaled_per_axis_witness :
  ({[ "o.las" := LasData offset_las ]} : gmap string File) !! "o.las"
    = Some (LasData offset_las)
  ∧ well_formed offset_las
  ∧ "o.las" ≠ "o.csv"
  ∧ (length (Las.records offset_las) ≤ 1)%nat
  ∧ export_las_to_csv 1 "o.las" "o.csv" CHUNK_SIZE {[ "o.las" := LasData offset_las ]}
    = (Return,
       <["o.csv" := CsvData [HEADER; [CNum 1001; CNum 1997.5; CNum 45]]]>
         {[ "o.las" := LasData offset_las ]}).
Proof.
  assert (H1 : ({[ "o.las" := LasData offset_las ]} : gmap string File) !! "o.las"
               = Some (LasData offset_las)) by reflexivity.
  assert (H2 : well_formed offset_las) by reflexivity.
  assert (H3 : "o.las" ≠ "o.csv") by discriminate.
  assert (H4 : (length (Las.records offset_las) ≤ 1)%nat) by (simpl; lia).
  split_and!; try assumption.
  exact (proj1 (proj1 (proj2 (proj2 coordinates_scaled_per_axis))
                  1%nat "o.las" "o.csv" CHUNK_SIZE _ offset_las H1 H2 H3 H4)).
Defined.

(** ** Batches *)

(** No exception leaves the worker: a failed export is shown and the loop
    goes on. *)
Lemma worker_loop_no_raise fuel self todo ok (fs : gmap string File) ui e :
  (worker_loop fuel self todo ok fs ui).1 ≠ Raise e.
Proof.
  revert ok fs ui. induction todo as [|[idx las_path] todo IH]; intros ok fs ui.
  - done.
  - cbn [worker_loop].
    destruct (if as_csv_var self then _ else _) as [[|e'|] fs']; [apply IH..|done].
Qed.

(** The loop of [main] stops at the first export that raises. *)
Lemma main_loop_stops fuel las_path todo (w : World) e fs' :
  export_las_to_csv fuel las_path
      (OsPath.join (OsPath.dirname las_path)
         ((OsPath.splitext (OsPath.basename las_path)).1 +:+ ".csv"))
      CHUNK_SIZE (files w) = (Raise e, fs') →
  main_loop fuel (las_path :: todo) w = (Raise e, mkWorld fs' (stdout w)).
Proof. intros Hrun. cbn [main_loop]. by rewrite Hrun. Qed.

(** C8 at a failing input.  On a command line naming a truncated file and
    then a sound one, [main] ends with the error of the first and never
    exports the second; the worker of the window application, given the
    same files, reports the error and goes on to export the second. *)
Theorem main_aborts_batch :
  let argv := ["arcgis.py"; "d/bad.las"; "d/good.las"] in
  let cli := main 3 ∅ argv batch_world in
  let gui := _export_worker 3 (mkApp ["d/bad.las"; "d/good.las"] "" true)
               (files batch_world) in
  cli.1 = Finished (Raise Truncated)
  ∧ files cli.2 !! "d/good.csv" = None
  ∧ stdout cli.2 = []
  ∧ gui.1 = Return
  ∧ gui.2.1 !! "d/good.csv" = Some (CsvData (HEADER :: decoded_rows sample_las))
  ∧ gui.2.2 = [ShowError "d/bad.las" Truncated; Progress 1; Progress 2; ExportDone 1].
Proof. cbv zeta. split_and!; reflexivity. Qed.

(** * Further properties of the code *)

(** ** What an export does to the files *)

(** The flat export gives the same result whatever was at its destination
    before. *)
Lemma export_csv_overwrites fuel las_path csv_path chunk_size
    (fs : gmap string File) old :
  export_las_to_csv fuel las_path csv_path chunk_size (<[csv_path := old]> fs)
  = export_las_to_csv fuel las_path csv_path chunk_size fs.
Proof.
  unfold export_las_to_csv. by rewrite !csv_start, insert_insert_eq.
Qed.


(** X1.  An export changes no file but its destination. *)
Theorem export_frame fuel las_path out_path chunk_size (fs : gmap string File) p :
  p ≠ out_path →
  (export_las_to_csv fuel las_path out_path chunk_size fs).2 !! p = fs !! p
  ∧ (export_las_to_excel fuel las_path out_path chunk_size fs).2 !! p = fs !! p.
Proof.
  intros Hp. split.
  - by rewrite export_csv_files, lookup_insert_ne.
  - unfold export_las_to_excel.
    destruct (export_paginated_files EXCEL_MAX_ROWS fuel las_path out_path
                chunk_size fs) as [->|(f & sheets & _ & _ & ->)]; [done|].
    by rewrite lookup_insert_ne.
Qed.

Lemma export_frame_witness :
  "a.las" ≠ "a.csv"
  ∧ (export_las_to_csv 3 "a.las" "a.csv" 2 sample_fs).2 !! "a.las"
    = sample_fs !! "a.las".
Proof.
  assert (H1 : "a.las" ≠ "a.csv") by discriminate.
  split; [assumption|].
  exact (proj1 (export_frame 3 "a.las" "a.csv" 2 sample_fs "a.las" H1)).
Defined.

(** X2.  The paginated export writes its workbook only when it returns:
    when it raises or is left running, the files are as they were, a stale
    workbook at the destination included; when it returns, the destination
    holds a workbook whose first page is titled Points_1 and starts with the
    header. *)
Theorem export_excel_all_or_nothing fuel las_path xlsx_path chunk_size
    (fs : gmap string File) :
  let r := export_las_to_excel fuel las_path xlsx_path chunk_size fs in
  (r.1 = Return
   ∧ ∃ first others,
       r.2 = <[xlsx_path := XlsxData (first :: others)]> fs
       ∧ title first = "Points_1"
       ∧ head (rows first) = Some HEADER)
  ∨ (r.1 ≠ Return ∧ r.2 = fs).
Proof.
  intros r. subst r. unfold export_las_to_excel, export_paginated.
  destruct (laspy_open las_path fs) as [e|f]; [by right|].
  destruct (chunk_points fuel f _) as [chunks|]; [|by right].
  left. split; [done|]. cbn [snd]. rewrite excel_loop_rows.
  pose proof (excel_run_inv _ (chunks ≫= chunk_rows) EXCEL_MAX_ROWS_ge) as Hinv.
  destruct (excel_inv_sheets _ _ _ EXCEL_MAX_ROWS_ge Hinv)
    as (Hlen & _ & _ & Hhead & _ & Htitles & _).
  destruct Hinv as (prev & cur & Hwb & _ & Hidx & _).
  destruct (wb (foldl _ _ _)) as [|first others] eqn:Hsheets.
  { by destruct prev. }
  exists first, others. split_and!; [done| |by apply Forall_cons in Hhead as [? _]].
  rewrite seqZ_cons in Htitles by lia. by injection Htitles as -> _.
Qed.



Lemma export_csv_onto_input_eq fuel path chunk_size (fs : gmap string File) :
  export_las_to_csv fuel path path chunk_size fs
  = (Raise Malformed, <[path := CsvData [HEADER]]> fs).
Proof.
  unfold export_las_to_csv. rewrite csv_start.
  by rewrite (laspy_open_csv path _ [HEADER]) by apply lookup_insert_eq.
Qed.

(** X4.  A flat export whose destination is its own input destroys the
    input: the file is emptied before it is read, the reader then refuses
    it, and what stays is the header row. *)
Theorem export_csv_onto_input fuel path chunk_size (fs : gmap string File) :
  export_las_to_csv fuel path path chunk_size fs
  = (Raise Malformed, <[path := CsvData [HEADER]]> fs).
Proof. apply export_csv_onto_input_eq. Qed.

(** X5.  An export to a destination other than its input overwrites: a
    second run on the files the first run left gives the outcome and the
    files of the first run, so nothing is appended. *)
Theorem export_again_same_files fuel las_path out_path chunk_size
    (fs : gmap string File) :
  las_path ≠ out_path →
  export_las_to_csv fuel las_path out_path chunk_size
    (export_las_to_csv fuel las_path out_path chunk_size fs).2
  = export_las_to_csv fuel las_path out_path chunk_size fs
  ∧ export_las_to_excel fuel las_path out_path chunk_size
      (export_las_to_excel fuel las_path out_path chunk_size fs).2
    = export_las_to_excel fuel las_path out_path chunk_size fs.
Proof.
  intros Hne. split.
  - rewrite export_csv_files at 1. apply export_csv_overwrites.
  - unfold export_las_to_excel.
    destruct (export_paginated_files EXCEL_MAX_ROWS fuel las_path out_path
                chunk_size fs) as [->|(f & sheets & Hopen & Hrun & Hfiles)]; [done|].
    rewrite Hfiles. unfold export_paginated.
    rewrite (laspy_open_ext las_path (<[out_path:=XlsxData sheets]> fs) fs)
      by (by rewrite lookup_insert_ne).
    rewrite Hopen. destruct (chunk_points fuel f _) as [chunks|]; [|done].
    by rewrite insert_insert_eq.
Qed.

Lemma export_again_same_files_witness :
  "a.las" ≠ "a.csv"
  ∧ export_las_to_csv 3 "a.las" "a.csv" 2
      (export_las_to_csv 3 "a.las" "a.csv" 2 sample_fs).2
    = export_las_to_csv 3 "a.las" "a.csv" 2 sample_fs.
Proof.
  assert (H1 : "a.las" ≠ "a.csv") by discriminate.
  split; [assumption|].
  exact (proj1 (export_again_same_files 3 "a.las" "a.csv" 2 sample_fs H1)).
Defined.

(** ** Where a point lands in the workbook *)

(** Pages of [S m] rows each followed by one more page of at most [S m]
    rows: the [i]-th data row is row [S (i mod m)] of page [i / m]. *)
Lemma data_rows_lookup (m : nat) (prev : list Worksheet) cur (i : nat) :
  (0 < m)%nat →
  Forall (λ s, length (rows s) = S m) prev →
  (length (rows cur) ≤ S m)%nat →
  (i < length (data_rows (prev ++ [cur])))%nat →
  ∃ s, (prev ++ [cur]) !! (i / m)%nat = Some s
       ∧ rows s !! S (i mod m) = data_rows (prev ++ [cur]) !! i.
Proof.
  intros Hm Hfull Hcur. revert i.
  induction Hfull as [|p prev Hp _ IH]; intros i Hi.
  - cbn [app] in *. unfold data_rows in *. rewrite bind_cons in *.
    cbn [mbind list_bind] in *. rewrite app_nil_r in *.
    rewrite length_tail_pred in Hi.
    assert (i < m)%nat by lia.
    rewrite Nat.div_small, Nat.mod_small by done.
    exists cur. split; [done|]. by destruct (rows cur).
  - cbn [app] in Hi |- *. unfold data_rows in *. rewrite bind_cons in Hi |- *.
    assert (Hlen : length (tail (rows p)) = m) by (rewrite length_tail_pred; lia).
    destruct (decide (i < m)%nat) as [Hlt|Hge].
    + rewrite Nat.div_small, Nat.mod_small by done.
      exists p. split; [done|]. rewrite lookup_app_l by lia.
      by destruct (rows p).
    + rewrite length_app, Hlen in Hi.
      destruct (IH (i - m)%nat ltac:(lia)) as (s & Hs & Hrow).
      exists s.
      replace i with ((i - m) + 1 * m)%nat at 1 2 by lia.
      rewrite Nat.div_add, Nat.Div0.mod_add by lia.
      replace ((i - m) / m + 1)%nat with (S ((i - m) / m)) by lia.
      cbn [lookup list_lookup]. split; [exact Hs|].
      rewrite Hrow, lookup_app_r by lia. by rewrite Hlen.
Qed.

(** X6.  For a page capacity [R] of at least 2, the [i]-th row that goes
    through the loop (from 0) ends up on page [i / (R - 1)] (from 0), titled
    Points_(1 + i / (R - 1)), as the row [1 + i mod (R - 1)] below the
    header. *)
Theorem point_position R (written : list Row) (i : nat) :
  2 ≤ R → (i < length written)%nat →
  let sheets := wb (foldl (excel_row R) excel_start written) in
  let m := Z.to_nat (R - 1) in
  ∃ s, sheets !! (i / m)%nat = Some s
       ∧ title s = sheet_title (1 + Z.of_nat (i / m))
       ∧ rows s !! 0%nat = Some HEADER
       ∧ rows s !! S (i mod m) = written !! i.
Proof.
  intros HR Hi sheets m.
  pose proof (excel_run_inv R written HR) as Hinv.
  destruct (excel_inv_sheets _ _ _ HR Hinv) as (_ & _ & _ & Hhead & _ & Htitles & _).
  destruct Hinv as (prev & cur & Hwb & _ & Hidx & Hrows & Hbound & _ & _ & Hfull
                    & _ & Hdata).
  fold sheets in Hwb, Hdata, Htitles, Hhead.
  destruct (data_rows_lookup m prev cur i) as (s & Hs & Hrow).
  - subst m. lia.
  - eapply Forall_impl; [exact Hfull|]. simpl. intros s Hs. subst m. lia.
  - subst m. lia.
  - by rewrite <- Hwb, Hdata.
  - rewrite <- Hwb in Hs, Hrow. rewrite Hdata in Hrow.
    exists s. split_and!; try done.
    + assert (Ht : (title <$> sheets) !! (i / m)%nat = Some (title s))
        by (by rewrite list_lookup_fmap, Hs).
      rewrite Htitles, list_lookup_fmap in Ht.
      destruct (seqZ 1 (sheet_index _) !! (i / m)%nat) as [k|] eqn:Hk; [|done].
      apply lookup_seqZ in Hk as [-> _]. by injection Ht as <-.
    + apply (Forall_lookup_1 _ _ _ _ Hhead) in Hs.
      by destruct (rows s).
Qed.

Lemma point_position_witness :
  2 ≤ 3
  ∧ (2 < length [[CNum 1]; [CNum 2]; [CNum 3]])%nat
  ∧ ∃ s, wb (foldl (excel_row 3) excel_start [[CNum 1]; [CNum 2]; [CNum 3]])
           !! 1%nat = Some s
         ∧ title s = "Points_2"
         ∧ rows s !! 1%nat = Some [CNum 3].
Proof.
  assert (H1 : 2 ≤ 3) by lia.
  assert (H2 : (2 < length [[CNum 1%float]; [CNum 2%float]; [CNum 3%float]])%nat)
    by (simpl; lia).
  split_and!; try assumption.
  destruct (point_position 3 [[CNum 1%float]; [CNum 2%float]; [CNum 3%float]] 2 H1 H2)
    as (s & Hs & Ht & _ & Hrow).
  exists s. split_and!; [exact Hs | exact Ht | exact Hrow].
Defined.

(** X7.  Every page of the paginated export but the last is full: it has
    exactly [R] rows, the header and [R - 1] points. *)
Theorem pages_before_last_full R fuel las_path xlsx_path chunk_size
    (fs : gmap string File) f :
  2 ≤ R → fs !! las_path = Some (LasData f) → well_formed f →
  (length (Las.records f) ≤ fuel)%nat →
  ∃ earlier final,
    export_paginated R fuel las_path xlsx_path chunk_size fs
      = (Return, <[xlsx_path := XlsxData (earlier ++ [final])]> fs)
    ∧ Forall (λ s, Z.of_nat (length (rows s)) = R) earlier.
Proof.
  intros HR Hf Hwf Hfuel.
  destruct (excel_run_inv R (decoded_rows f) HR)
    as (prev & cur & Hwb & _ & _ & _ & _ & _ & _ & Hfull & _).
  exists prev, cur. split; [|done].
  rewrite <- Hwb. by apply export_paginated_opened.
Qed.

Lemma pages_before_last_full_witness :
  2 ≤ 3
  ∧ sample_fs !! "a.las" = Some (LasData sample_las)
  ∧ well_formed sample_las
  ∧ (length (Las.records sample_las) ≤ 3)%nat
  ∧ ∃ earlier final,
      export_paginated 3 3 "a.las" "a.xlsx" 2 sample_fs
        = (Return, <["a.xlsx" := XlsxData (earlier ++ [final])]> sample_fs)
      ∧ Forall (λ s, Z.of_nat (length (rows s)) = 3) earlier.
Proof.
  assert (H1 : 2 ≤ 3) by lia.
  assert (H2 : sample_fs !! "a.las" = Some (LasData sample_las)) by reflexivity.
  assert (H3 : well_formed sample_las) by reflexivity.
  assert (H4 : (length (Las.records sample_las) ≤ 3)%nat) by (simpl; lia).
  split_and!; try assumption.
  exact (pages_before_last_full 3 3 "a.las" "a.xlsx" 2 sample_fs sample_las
           H1 H2 H3 H4).
Defined.

(** ** The command-line loop of main *)

Lemma las_within_insert fuel (fs : gmap string File) p x :
  las_within fuel fs → (∀ f, x ≠ LasData f) → las_within fuel (<[p := x]> fs).
Proof.
  intros Hin Hx q f. destruct (decide (p = q)) as [->|Hne].
  - rewrite lookup_insert_eq. intros [= ->]. by destruct (Hx f).
  - rewrite lookup_insert_ne by done. apply Hin.
Qed.

Lemma main_loop_cons fuel las_path todo (w : World) :
  main_loop fuel (las_path :: todo) w
  = match export_las_to_csv fuel las_path (cli_out_path las_path) CHUNK_SIZE
            (files w) with
    | (Return, fs) =>
        main_loop fuel todo
          (mkWorld fs (stdout w ++ ["Exported: " +:+ cli_out_path las_path]))
    | (o, fs) => (o, mkWorld fs (stdout w))
    end.
Proof. done. Qed.

(** The loop changes no file that is not the destination of one of its
    inputs. *)
Lemma main_loop_frame fuel todo (w : World) x :
  Forall (λ q, cli_out_path q ≠ x) todo →
  files (main_loop fuel todo w).2 !! x = files w !! x.
Proof.
  intros Hx. revert w. induction Hx as [|p todo Hp _ IH]; intros w; [done|].
  rewrite main_loop_cons.
  pose proof (export_csv_files fuel p (cli_out_path p) CHUNK_SIZE (files w)) as Hfs.
  destruct (export_las_to_csv fuel p (cli_out_path p) CHUNK_SIZE (files w))
    as [[|e|] fs'] eqn:Hrun; cbn [snd] in Hfs; subst fs'.
  - rewrite IH. cbn [files]. by rewrite lookup_insert_ne.
  - cbn [snd files]. by rewrite lookup_insert_ne.
  - cbn [snd files]. by rewrite lookup_insert_ne.
Qed.

(** X8.  The command-line loop exports its inputs in order, each on the
    files the exports before it left, up to the first export that does not
    return.  It prints one line for each export that returned, in order,
    and nothing else.  It returns exactly when every export returned, and
    the files are then those the exports leave one after the other;
    otherwise it ends as the first export that did not return ended, with
    the files of that export, and the inputs after it are not touched. *)
Theorem main_loop_printed fuel todo (w : World) :
  let r := main_loop fuel todo w in
  let run (before : list string) (p : string) :=
    export_las_to_csv fuel p (cli_out_path p) CHUNK_SIZE
      (cli_exports fuel before (files w)) in
  ∃ k, (k ≤ length todo)%nat
       ∧ (∀ i p, (i < k)%nat → todo !! i = Some p →
            (run (take i todo) p).1 = Return)
       ∧ stdout r.2
         = stdout w ++ ((λ p, "Exported: " +:+ cli_out_path p) <$> take k todo)
       ∧ (r.1 = Return ↔ k = length todo)
       ∧ (r.1 = Return → files r.2 = cli_exports fuel todo (files w))
       ∧ (r.1 ≠ Return →
            ∃ p, todo !! k = Some p ∧ run (take k todo) p = (r.1, files r.2)).
Proof.
  revert w. induction todo as [|p todo IH]; intros w r run.
  - exists 0%nat. subst r run. cbn. rewrite app_nil_r.
    split_and!; done.
  - subst r run. rewrite main_loop_cons.
    destruct (export_las_to_csv fuel p (cli_out_path p) CHUNK_SIZE (files w))
      as [o fs'] eqn:Hrun.
    assert (Hstop : o ≠ Return →
      ∃ k, (k ≤ length (p :: todo))%nat
        ∧ (∀ i q, (i < k)%nat → (p :: todo) !! i = Some q →
             (export_las_to_csv fuel q (cli_out_path q) CHUNK_SIZE
                (cli_exports fuel (take i (p :: todo)) (files w))).1 = Return)
        ∧ stdout w
          = stdout w ++ ((λ p, "Exported: " +:+ cli_out_path p)
                           <$> take k (p :: todo))
        ∧ (o = Return ↔ k = length (p :: todo))
        ∧ (o = Return → fs' = cli_exports fuel (p :: todo) (files w))
        ∧ (o ≠ Return →
             ∃ q, (p :: todo) !! k = Some q
                  ∧ export_las_to_csv fuel q (cli_out_path q) CHUNK_SIZE
                      (cli_exports fuel (take k (p :: todo)) (files w))
                    = (o, fs'))).
    { intros Ho. exists 0%nat. cbn. rewrite app_nil_r.
      split_and!; try done; [lia|intros; lia|by exists p]. }
    destruct o as [|e|]; [|by apply Hstop..]. clear Hstop.
    destruct (IH (mkWorld fs' (stdout w ++ ["Exported: " +:+ cli_out_path p])))
      as (k & Hk & Hran & Hout & Hret & Hfiles & Hfail).
    cbn [files stdout] in Hran, Hout, Hfiles, Hfail.
    assert (Hfs : ∀ l, cli_exports fuel (p :: l) (files w) = cli_exports fuel l fs').
    { intros l. unfold cli_exports. cbn [foldl]. by rewrite Hrun. }
    exists (S k). split_and!.
    + simpl. lia.
    + intros [|i] q Hi Hq.
      * injection Hq as <-. cbn [take]. unfold cli_exports. cbn [foldl].
        by rewrite Hrun.
      * cbn [take]. rewrite Hfs. apply Hran; [lia|done].
    + rewrite Hout. cbn [take fmap list_fmap]. by rewrite <- app_assoc.
    + rewrite Hret. simpl. lia.
    + intros Hr. rewrite Hfs. by apply Hfiles.
    + intros Hr. destruct (Hfail Hr) as (q & Hq & Hrunq).
      exists q. split; [done|]. cbn [take]. by rewrite Hfs.
Qed.

(** X9.  When every input is a sound .las file that can be read within the
    fuel, no destination is one of the inputs and no two inputs share a
    destination, the command-line loop returns, prints one line per input,
    leaves the inputs as they were and leaves at the destination of each
    input the header row followed by its points. *)
Theorem main_loop_exports_all fuel todo (w : World) :
  las_within fuel (files w) →
  Forall (λ p, ∃ f, files w !! p = Some (LasData f) ∧ well_formed f) todo →
  Forall (λ p, Forall (λ q, cli_out_path p ≠ q) todo) todo →
  NoDup (cli_out_path <$> todo) →
  let r := main_loop fuel todo w in
  r.1 = Return
  ∧ stdout r.2 = stdout w ++ ((λ p, "Exported: " +:+ cli_out_path p) <$> todo)
  ∧ Forall (λ p, files r.2 !! p = files w !! p
                 ∧ ∀ f, files w !! p = Some (LasData f) →
                        files r.2 !! cli_out_path p
                        = Some (CsvData (HEADER :: decoded_rows f))) todo.
Proof.
  revert w. induction todo as [|p todo IH]; intros w Hfuel Hsound Hapart Hdistinct r.
  { subst r. cbn. by rewrite app_nil_r. }
  apply Forall_cons in Hsound as [(f & Hf & Hwf) Hsound].
  apply Forall_cons in Hapart as [Hp Hapart].
  apply Forall_cons in Hp as [Hpp Hp].
  rewrite fmap_cons in Hdistinct. apply NoDup_cons in Hdistinct as [Hfresh Hdistinct].
  subst r. rewrite main_loop_cons.
  rewrite (export_csv_opened fuel p (cli_out_path p) CHUNK_SIZE (files w) f)
    by (done || by apply (Hfuel p f)).
  set (w1 := mkWorld _ _).
  assert (Hother : Forall (λ q, cli_out_path q ≠ cli_out_path p) todo).
  { apply Forall_forall. intros q Hq Heq. apply Hfresh.
    rewrite <- Heq. by apply list_elem_of_fmap_2. }
  assert (Hinputs : Forall (λ q, cli_out_path q ≠ p) todo).
  { eapply Forall_impl; [exact Hapart|]. simpl. intros q Hq.
    by apply Forall_cons in Hq as [? _]. }
  destruct (IH w1) as (Hret & Hout & Hall).
  - subst w1. cbn [files]. by apply las_within_insert.
  - assert (Hboth : Forall (λ q, (∃ g, files w !! q = Some (LasData g) ∧ well_formed g)
                                ∧ cli_out_path p ≠ q) todo)
      by (apply Forall_and; by split).
    eapply Forall_impl; [exact Hboth|].
    simpl. intros q [(g & Hg & Hgw) Hq]. exists g. split; [|done].
    subst w1. cbn [files]. by rewrite lookup_insert_ne.
  - eapply Forall_impl; [exact Hapart|]. simpl. intros q Hq.
    by apply Forall_cons in Hq as [_ ?].
  - done.
  - split_and!; [done| |].
    + rewrite Hout. subst w1. cbn [stdout]. by rewrite <- app_assoc.
    + constructor.
      * split.
        -- rewrite (main_loop_frame fuel todo w1 p Hinputs).
           subst w1. cbn [files]. by rewrite lookup_insert_ne.
        -- intros g Hg. rewrite Hf in Hg. injection Hg as <-.
           rewrite (main_loop_frame fuel todo w1 _ Hother).
           subst w1. cbn [files]. by rewrite lookup_insert_eq.
      * eapply Forall_impl; [apply Forall_and; split; [exact Hall|exact Hp]|].
        simpl. intros q [[Hq1 Hq2] Hq3]. subst w1. cbn [files] in *.
        rewrite lookup_insert_ne in Hq1, Hq2 by done. split; [done|].
        intros g Hg. by apply Hq2.
Qed.

Lemma main_loop_exports_all_witness :
  las_within 3 (files pair_world)
  ∧ Forall (λ p, ∃ f, files pair_world !! p = Some (LasData f) ∧ well_formed f)
      ["d/one.las"; "d/two.las"]
  ∧ Forall (λ p, Forall (λ q, cli_out_path p ≠ q) ["d/one.las"; "d/two.las"])
      ["d/one.las"; "d/two.las"]
  ∧ NoDup (cli_out_path <$> ["d/one.las"; "d/two.las"])
  ∧ stdout (main_loop 3 ["d/one.las"; "d/two.las"] pair_world).2
    = ["Exported: d/one.csv"; "Exported: d/two.csv"].
Proof.
  assert (H1 : las_within 3 (files pair_world)).
  { intros p f. unfold pair_world. cbn [files].
    destruct (decide (p = "d/one.las")) as [->|Hb].
    { rewrite lookup_insert_eq. intros [= <-]. simpl. lia. }
    rewrite lookup_insert_ne by done.
    destruct (decide (p = "d/two.las")) as [->|Hg].
    { rewrite lookup_singleton_eq. intros [= <-]. simpl. lia. }
    by rewrite lookup_singleton_ne. }
  assert (H2 : Forall (λ p, ∃ f, files pair_world !! p = Some (LasData f)
                                 ∧ well_formed f) ["d/one.las"; "d/two.las"]).
  { constructor; [|constructor; [|constructor]].
    - exists sample_las. split; reflexivity.
    - exists example_las. split; reflexivity. }
  assert (H3 : Forall (λ p, Forall (λ q, cli_out_path p ≠ q)
                              ["d/one.las"; "d/two.las"])
                 ["d/one.las"; "d/two.las"]).
  { repeat constructor; vm_compute; discriminate. }
  assert (H4 : NoDup (cli_out_path <$> ["d/one.las"; "d/two.las"])).
  { vm_compute. apply NoDup_cons. split; [|apply NoDup_singleton].
    intros Hin. apply list_elem_of_singleton in Hin. discriminate. }
  split_and!; try assumption.
  exact (proj1 (proj2 (main_loop_exports_all 3 ["d/one.las"; "d/two.las"]
                         pair_world H1 H2 H3 H4))).
Defined.

(** ** The modes of main *)

Lemma filter_none {A : Type} (P : A → Prop) `{∀ x, Decision (P x)} (l : list A) :
  Forall (λ x, ¬ P x) l → filter P l = [].
Proof.
  induction 1 as [|x l Hx _ IH]; [done|]. by rewrite filter_cons_False.
Qed.

(** X10.  Outside the headless mode, a command line none of whose
    arguments is an existing file makes main print that no valid input was
    given and return; no file is created or changed. *)
Theorem main_no_valid_files fuel (environ : gmap string string) argv (w : World) :
  environ !! "LAS_EXPORT_HEADLESS" ≠ Some "1" →
  1 < Z.of_nat (length argv) →
  Forall (λ p, files w !! p = None) (tail argv) →
  main fuel environ argv w
  = (Finished Return,
     mkWorld (files w) (stdout w ++ ["No valid input files provided."])).
Proof.
  intros Henv Hlen Hnone. unfold main.
  rewrite bool_decide_eq_false_2, bool_decide_eq_true_2 by done.
  rewrite filter_none; [done|].
  eapply Forall_impl; [exact Hnone|]. simpl. intros p Hp.
  unfold isfile. rewrite Hp, bool_decide_eq_false_2; [done|].
  by intros [? ?].
Qed.

Lemma main_no_valid_files_witness :
  (∅ : gmap string string) !! "LAS_EXPORT_HEADLESS" ≠ Some "1"
  ∧ 1 < Z.of_nat (length ["arcgis.py"; "nowhere.las"])
  ∧ Forall (λ p, files batch_world !! p = None) (tail ["arcgis.py"; "nowhere.las"])
  ∧ main 0 ∅ ["arcgis.py"; "nowhere.las"] batch_world
    = (Finished Return,
       mkWorld (files batch_world) ["No valid input files provided."]).
Proof.
  assert (H1 : (∅ : gmap string string) !! "LAS_EXPORT_HEADLESS" ≠ Some "1")
    by (by rewrite lookup_empty).
  assert (H2 : 1 < Z.of_nat (length ["arcgis.py"; "nowhere.las"])) by (simpl; lia).
  assert (H3 : Forall (λ p, files batch_world !! p = None)
                 (tail ["arcgis.py"; "nowhere.las"]))
    by (repeat constructor).
  split_and!; try assumption.
  exact (main_no_valid_files 0 ∅ ["arcgis.py"; "nowhere.las"] batch_world H1 H2 H3).
Defined.

(** X11.  In the headless mode main ignores the command line: it exports
    ./sample.las to ./sample.csv.  When that input is missing it ends with
    the reader's Io error, prints nothing and leaves a ./sample.csv that
    holds the header row only; when the input is sound it leaves the header
    row and the points there and prints one line. *)
Theorem main_headless fuel (environ : gmap string string) argv (w : World) :
  environ !! "LAS_EXPORT_HEADLESS" = Some "1" →
  (files w !! "./sample.las" = None →
     main fuel environ argv w
     = (Finished (Raise Io),
        mkWorld (<["./sample.csv" := CsvData [HEADER]]> (files w)) (stdout w)))
  ∧ (∀ f, files w !! "./sample.las" = Some (LasData f) → well_formed f →
          (length (Las.records f) ≤ fuel)%nat →
     main fuel environ argv w
     = (Finished Return,
        mkWorld (<["./sample.csv" := CsvData (HEADER :: decoded_rows f)]> (files w))
          (stdout w ++ ["Headless export complete: ./sample.csv"]))).
Proof.
  intros Henv. unfold main. rewrite bool_decide_eq_true_2 by done.
  change (OsPath.rsplit_dot_head DEFAULT_LAS +:+ ".csv") with "./sample.csv".
  change DEFAULT_LAS with "./sample.las".
  split.
  - intros Hnone. unfold export_las_to_csv. rewrite csv_start.
    by rewrite laspy_open_missing by (by rewrite lookup_insert_ne).
  - intros f Hf Hwf Hfuel.
    by rewrite (export_csv_opened fuel "./sample.las" "./sample.csv" _ _ f).
Qed.

Lemma main_headless_witness :
  ({[ "LAS_EXPORT_HEADLESS" := "1" ]} : gmap string string)
    !! "LAS_EXPORT_HEADLESS" = Some "1"
  ∧ main 0 {[ "LAS_EXPORT_HEADLESS" := "1" ]} ["arcgis.py"; "d/good.las"] batch_world
    = (Finished (Raise Io),
       mkWorld (<["./sample.csv" := CsvData [HEADER]]> (files batch_world)) []).
Proof.
  assert (H1 : ({[ "LAS_EXPORT_HEADLESS" := "1" ]} : gmap string string)
                 !! "LAS_EXPORT_HEADLESS" = Some "1") by reflexivity.
  split; [assumption|].
  exact (proj1 (main_headless 0 _ ["arcgis.py"; "d/good.las"] batch_world H1)
           eq_refl).
Defined.

(** X12.  An input whose destination is the input itself, as for a file
    named like the output, is destroyed by the command-line loop: the file
    is replaced by the header row, the loop ends with the reader's Malformed
    error and the inputs after it are not exported. *)
Theorem main_loop_destroys_csv_input fuel las_path todo (w : World) :
  cli_out_path las_path = las_path →
  main_loop fuel (las_path :: todo) w
  = (Raise Malformed,
     mkWorld (<[las_path := CsvData [HEADER]]> (files w)) (stdout w)).
Proof.
  intros Hsame. by rewrite main_loop_cons, Hsame, export_csv_onto_input_eq.
Qed.

Lemma main_loop_destroys_csv_input_witness :
  cli_out_path "data.csv" = "data.csv"
  ∧ main_loop 0 ["data.csv"; "d/good.las"] batch_world
    = (Raise Malformed,
       mkWorld (<["data.csv" := CsvData [HEADER]]> (files batch_world)) []).
Proof.
  assert (H1 : cli_out_path "data.csv" = "data.csv") by reflexivity.
  split; [assumption|].
  exact (main_loop_destroys_csv_input 0 "data.csv" ["d/good.las"] batch_world H1).
Defined.

(** ** The worker of the window application *)

Lemma enumerate_from {A : Type} (xs : list A) (c : Z) :
  fst <$> imap (λ i a, (Z.of_nat i + c, a)) xs = seqZ c (Z.of_nat (length xs))
  ∧ snd <$> imap (λ i a, (Z.of_nat i + c, a)) xs = xs.
Proof.
  revert c. induction xs as [|x xs IH]; intros c; [done|].
  rewrite imap_cons, !fmap_cons.
  rewrite (imap_ext _ (λ i a, (Z.of_nat i + (c + 1), a)))
    by (intros i a _; simpl; f_equal; lia).
  destruct (IH (c + 1)) as [-> ->]. split; [|done].
  rewrite (seqZ_cons c) by (simpl; lia). cbn [fst]. do 2 f_equal; simpl; lia.
Qed.

Lemma enumerate1_fst {A : Type} (xs : list A) :
  fst <$> enumerate1 xs = seqZ 1 (Z.of_nat (length xs)).
Proof. apply enumerate_from. Qed.

Lemma enumerate1_snd {A : Type} (xs : list A) : snd <$> enumerate1 xs = xs.
Proof. apply (enumerate_from xs 1). Qed.

Lemma take_seqZ_le (m : Z) (k n : nat) :
  (k ≤ n)%nat → take k (seqZ m (Z.of_nat n)) = seqZ m (Z.of_nat k).
Proof.
  intros Hk. unfold seqZ. rewrite <- fmap_take, take_seq, !Nat2Z.id.
  by replace (k `min` n)%nat with k by lia.
Qed.

Lemma progress_values_app ui1 ui2 :
  progress_values (ui1 ++ ui2) = progress_values ui1 ++ progress_values ui2.
Proof. apply bind_app. Qed.

Lemma error_paths_app ui1 ui2 :
  error_paths (ui1 ++ ui2) = error_paths ui1 ++ error_paths ui2.
Proof. apply bind_app. Qed.

(** The export of the worker for one input: it is one of the two exports,
    to the worker's destination. *)
Lemma worker_loop_cons fuel self idx las_path todo ok (fs : gmap string File) ui :
  worker_loop fuel self ((idx, las_path) :: todo) ok fs ui
  = match (if as_csv_var self
           then export_las_to_csv fuel las_path (worker_out_path self las_path)
                  CHUNK_SIZE fs
           else export_las_to_excel fuel las_path (worker_out_path self las_path)
                  CHUNK_SIZE fs) with
    | (Return, fs') =>
        worker_loop fuel self todo (ok + 1) fs' (ui ++ [Progress idx])
    | (Raise e, fs') =>
        worker_loop fuel self todo ok fs'
          (ui ++ [ShowError las_path e; Progress idx])
    | (Diverge, fs') => (Diverge, (ok, fs', ui))
    end.
Proof.
  cbn [worker_loop]. unfold worker_out_path.
  by destruct (as_csv_var self), (bool_decide (output_dir self ≠ EmptyString)).
Qed.

Lemma worker_export_within fuel self las_path (fs : gmap string File) :
  las_within fuel fs →
  let r := if as_csv_var self
           then export_las_to_csv fuel las_path (worker_out_path self las_path)
                  CHUNK_SIZE fs
           else export_las_to_excel fuel las_path (worker_out_path self las_path)
                  CHUNK_SIZE fs in
  r.1 ≠ Diverge ∧ las_within fuel r.2.
Proof.
  intros Hin r. subst r. destruct (as_csv_var self).
  - split.
    + apply export_csv_terminates. intros f. apply Hin.
    + rewrite export_csv_files. by apply las_within_insert.
  - unfold export_las_to_excel. split.
    + apply export_paginated_terminates. intros f. apply Hin.
    + destruct (export_paginated_files EXCEL_MAX_ROWS fuel las_path
                  (worker_out_path self las_path) CHUNK_SIZE fs)
        as [->|(f & sheets & _ & _ & ->)]; [done|].
      by apply las_within_insert.
Qed.

(** What the loop of the worker adds to the scheduled callbacks when every
    export comes to an end. *)
Lemma worker_loop_within fuel self todo ok (fs : gmap string File) ui :
  las_within fuel fs →
  ∃ ok' fs' ui',
    worker_loop fuel self todo ok fs ui = (Return, (ok', fs', ui ++ ui'))
    ∧ progress_values ui' = todo.*1
    ∧ error_paths ui' `sublist_of` todo.*2
    ∧ ok' = ok + Z.of_nat (length todo) - Z.of_nat (length (error_paths ui'))
    ∧ Forall (λ ev, ∀ n, ev ≠ ExportDone n) ui'
    ∧ las_within fuel fs'.
Proof.
  revert ok fs ui. induction todo as [|[idx las_path] todo IH]; intros ok fs ui Hin.
  - exists ok, fs, []. rewrite app_nil_r. cbn. split_and!; try done. lia.
  - rewrite worker_loop_cons.
    destruct (worker_export_within fuel self las_path fs Hin) as [Hend Hin'].
    destruct (if as_csv_var self then _ else _) as [[|e|] fs1]; [| |done].
    + destruct (IH (ok + 1) fs1 (ui ++ [Progress idx]) Hin')
        as (ok' & fs' & ui' & -> & Hp & He & Hok & Hdone & Hw).
      exists ok', fs', (Progress idx :: ui').
      rewrite <- app_assoc. split_and!; try done.
      * cbn [app]. change (Progress idx :: ui') with ([Progress idx] ++ ui').
        rewrite progress_values_app, Hp. done.
      * change (Progress idx :: ui') with ([Progress idx] ++ ui').
        rewrite error_paths_app. cbn [fmap list_fmap snd].
        by apply sublist_cons.
      * change (Progress idx :: ui') with ([Progress idx] ++ ui').
        rewrite error_paths_app. cbn [length] in *. simpl. lia.
      * by constructor.
    + destruct (IH ok fs1 (ui ++ [ShowError las_path e; Progress idx]) Hin')
        as (ok' & fs' & ui' & -> & Hp & He & Hok & Hdone & Hw).
      exists ok', fs', (ShowError las_path e :: Progress idx :: ui').
      rewrite <- app_assoc. split_and!; try done.
      * change (ShowError las_path e :: Progress idx :: ui')
          with ([ShowError las_path e; Progress idx] ++ ui').
        rewrite progress_values_app, Hp. done.
      * change (ShowError las_path e :: Progress idx :: ui')
          with ([ShowError las_path e; Progress idx] ++ ui').
        rewrite error_paths_app. cbn [fmap list_fmap snd].
        by apply sublist_skip.
      * change (ShowError las_path e :: Progress idx :: ui')
          with ([ShowError las_path e; Progress idx] ++ ui').
        rewrite error_paths_app. simpl. simpl in Hok. lia.
      * by repeat constructor.
Qed.

Lemma worker_returns_within fuel self (fs : gmap string File) :
  las_within fuel fs →
  let r := _export_worker fuel self fs in
  let n := Z.of_nat (length (selected_files self)) in
  r.1 = Return
  ∧ ∃ ui, r.2.2 = ui ++ [ExportDone (n - Z.of_nat (length (error_paths ui)))]
          ∧ Forall (λ ev, ∀ k, ev ≠ ExportDone k) ui
          ∧ progress_values ui = seqZ 1 n
          ∧ error_paths ui `sublist_of` selected_files self
          ∧ las_within fuel r.2.1.
Proof.
  intros Hin r n. subst r. unfold _export_worker.
  destruct (worker_loop_within fuel self (enumerate1 (selected_files self)) 0 fs []
              Hin) as (ok' & fs' & ui' & -> & Hp & He & Hok & Hdone & Hw).
  rewrite enumerate1_fst in Hp. rewrite enumerate1_snd in He.
  split; [done|]. exists ui'. cbn [fst snd app].
  split_and!; try done.
  do 2 f_equal. rewrite Hok. subst n.
  assert (Hlen : length (enumerate1 (selected_files self))
                 = length (selected_files self))
    by (by rewrite <- (enumerate1_snd (selected_files self)) at 2;
        rewrite length_fmap).
  rewrite Hlen. reflexivity.
Qed.



(** The loop of the worker ends by returning or is left running; what it
    scheduled are the progress values of the inputs it finished. *)
Lemma worker_loop_outcome fuel self todo ok (fs : gmap string File) ui :
  ∃ k ui',
    (k ≤ length todo)%nat
    ∧ (worker_loop fuel self todo ok fs ui).2.2 = ui ++ ui'
    ∧ progress_values ui' = (take k todo).*1
    ∧ Forall (λ ev, ∀ n, ev ≠ ExportDone n) ui'
    ∧ ((worker_loop fuel self todo ok fs ui).1 = Return ∧ k = length todo
       ∨ (worker_loop fuel self todo ok fs ui).1 = Diverge ∧ (k < length todo)%nat).
Proof.
  revert ok fs ui. induction todo as [|[idx las_path] todo IH]; intros ok fs ui.
  - exists 0%nat, []. cbn. rewrite app_nil_r. split_and!; try done. by left.
  - rewrite worker_loop_cons.
    destruct (if as_csv_var self then _ else _) as [[|e|] fs1].
    + destruct (IH (ok + 1) fs1 (ui ++ [Progress idx]))
        as (k & ui' & Hk & -> & Hp & Hdone & Hend).
      exists (S k), (Progress idx :: ui'). rewrite <- app_assoc.
      split_and!; try done.
      * simpl. lia.
      * change (Progress idx :: ui') with ([Progress idx] ++ ui').
        rewrite progress_values_app, Hp. done.
      * by constructor.
      * destruct Hend as [[? ->]|[? ?]]; [by left|right]. split; [done|simpl; lia].
    + destruct (IH ok fs1 (ui ++ [ShowError las_path e; Progress idx]))
        as (k & ui' & Hk & -> & Hp & Hdone & Hend).
      exists (S k), (ShowError las_path e :: Progress idx :: ui').
      rewrite <- app_assoc. split_and!; try done.
      * simpl. lia.
      * change (ShowError las_path e :: Progress idx :: ui')
          with ([ShowError las_path e; Progress idx] ++ ui').
        rewrite progress_values_app, Hp. done.
      * by repeat constructor.
      * destruct Hend as [[? ->]|[? ?]]; [by left|right]. split; [done|simpl; lia].
    + exists 0%nat, []. cbn. rewrite app_nil_r. split_and!; try done; [lia|].
      right. split; [done|lia].
Qed.

(** X14.  No exception leaves the worker, whatever the files and the fuel:
    it returns or is left running.  The progress values it scheduled are
    1, ..., k for the k inputs it finished, and it schedules the completion
    callback, once and last, exactly when it returns. *)
Theorem worker_never_raises fuel self (fs : gmap string File) :
  let r := _export_worker fuel self fs in
  (∀ e, r.1 ≠ Raise e)
  ∧ ∃ k, (k ≤ length (selected_files self))%nat
         ∧ progress_values r.2.2 = seqZ 1 (Z.of_nat k)
         ∧ (r.1 = Return ↔ k = length (selected_files self))
         ∧ (r.1 = Return ↔ ∃ ui ok, r.2.2 = ui ++ [ExportDone ok])
         ∧ (r.1 ≠ Return → Forall (λ ev, ∀ n, ev ≠ ExportDone n) r.2.2).
Proof.
  intros r. subst r. unfold _export_worker.
  destruct (worker_loop_outcome fuel self (enumerate1 (selected_files self)) 0 fs [])
    as (k & ui' & Hk & Hui & Hp & Hdone & Hend).
  assert (Hlen : length (enumerate1 (selected_files self))
                 = length (selected_files self))
    by (by rewrite <- (enumerate1_snd (selected_files self)) at 2;
        rewrite length_fmap).
  assert (Hvals : (take k (enumerate1 (selected_files self))).*1
                  = seqZ 1 (Z.of_nat k)).
  { rewrite fmap_take, enumerate1_fst, take_seqZ_le; [done|lia]. }
  destruct (worker_loop _ _ _ _ _ _) as [o [[ok' fs'] ui]].
  cbn [fst snd app] in *. subst ui. rewrite Hlen in *.
  destruct Hend as [[-> ->]|[-> Hlt]].
  - split; [done|]. exists (length (selected_files self)). cbn [fst snd].
    split_and!; try done.
    + rewrite progress_values_app, Hp, Hvals. cbn. by rewrite app_nil_r.
    + split; [|done]. intros _. by exists ui', ok'.
  - split; [done|]. exists k. cbn [fst snd].
    split_and!; try done; try lia.
    + by rewrite Hp, Hvals.
    + split; [done|lia].
    + split; [done|]. intros (ui & ok & Heq). exfalso.
      assert (Hin : ExportDone ok ∈ ui') by (rewrite Heq; set_solver).
      by apply (proj1 (Forall_forall _ _) Hdone _ Hin ok).
Qed.

(** ** Destinations *)

Lemma string_app_cons a (s1 s2 : string) :
  String a s1 +:+ s2 = String a (s1 +:+ s2).
Proof. reflexivity. Qed.

Lemma string_app_nil (s : string) : EmptyString +:+ s = s.
Proof. reflexivity. Qed.

Lemma string_app_assoc (s1 s2 s3 : string) :
  (s1 +:+ s2) +:+ s3 = s1 +:+ (s2 +:+ s3).
Proof.
  induction s1 as [|a s1 IH]; [done|]. by rewrite !string_app_cons, IH.
Qed.

Lemma string_length_app (s1 s2 : string) :
  String.length (s1 +:+ s2) = (String.length s1 + String.length s2)%nat.
Proof.
  induction s1 as [|a s1 IH]; [done|].
  rewrite string_app_cons. cbn [String.length]. by rewrite IH.
Qed.

Lemma substring_all (s : string) : substring 0 (String.length s) s = s.
Proof.
  induction s as [|a s IH]; [done|]. cbn [String.length substring]. by rewrite IH.
Qed.

Lemma substring_app_l (s1 s2 : string) :
  substring 0 (String.length s1) (s1 +:+ s2) = s1.
Proof.
  induction s1 as [|a s1 IH]; [by destruct s2|].
  rewrite string_app_cons. cbn [String.length substring]. by rewrite IH.
Qed.

Lemma substring_app_r (s1 s2 : string) :
  substring (String.length s1) (String.length s2) (s1 +:+ s2) = s2.
Proof.
  induction s1 as [|a s1 IH]; [apply substring_all|].
  rewrite string_app_cons. cbn [String.length substring]. exact IH.
Qed.

Lemma upto_app (s1 s2 : string) :
  OsPath.upto (Z.of_nat (String.length s1)) (s1 +:+ s2) = s1.
Proof. unfold OsPath.upto. rewrite Nat2Z.id. apply substring_app_l. Qed.

Lemma from_app (s1 s2 : string) :
  OsPath.from (Z.of_nat (String.length s1)) (s1 +:+ s2) = s2.
Proof.
  unfold OsPath.from. rewrite Nat2Z.id, string_length_app.
  replace (String.length s1 + String.length s2 - String.length s1)%nat
    with (String.length s2) by lia.
  apply substring_app_r.
Qed.

Lemma lacks_app c (s1 s2 : string) :
  lacks c (s1 +:+ s2) = lacks c s1 && lacks c s2.
Proof.
  induction s1 as [|a s1 IH]; [done|].
  rewrite string_app_cons. cbn [lacks]. by rewrite IH, andb_assoc.
Qed.

Lemma rfind_lacks c (s : string) : lacks c s = true → OsPath.rfind c s = -1.
Proof.
  induction s as [|a s IH]; [done|]. cbn [lacks OsPath.rfind].
  intros [Ha Hs]%andb_true_iff. rewrite (IH Hs).
  rewrite bool_decide_eq_false_2 by lia.
  by apply negb_true_iff in Ha as ->.
Qed.

Lemma rfind_range c (s : string) :
  -1 ≤ OsPath.rfind c s < Z.of_nat (String.length s).
Proof.
  induction s as [|a s IH]; [done|]. cbn [OsPath.rfind String.length].
  case_bool_decide; [lia|]. destruct (Ascii.eqb a c); lia.
Qed.

Lemma rfind_app_sep c (s1 s2 : string) :
  lacks c s2 = true →
  OsPath.rfind c (s1 +:+ String c s2) = Z.of_nat (String.length s1).
Proof.
  intros Hs2. induction s1 as [|a s1 IH].
  - rewrite string_app_nil. cbn [OsPath.rfind String.length].
    rewrite (rfind_lacks c s2 Hs2).
    rewrite bool_decide_eq_false_2 by lia. by rewrite Ascii.eqb_refl.
  - rewrite string_app_cons. cbn [OsPath.rfind String.length]. rewrite IH.
    rewrite bool_decide_eq_true_2 by lia. lia.
Qed.

Lemma rfind_snoc_ne c a (s : string) :
  a ≠ c → OsPath.rfind c (s +:+ String a EmptyString) = OsPath.rfind c s.
Proof.
  intros Hne. induction s as [|b s IH].
  - rewrite string_app_nil. cbn [OsPath.rfind].
    rewrite bool_decide_eq_false_2 by lia.
    by apply Ascii.eqb_neq in Hne as ->.
  - rewrite string_app_cons. cbn [OsPath.rfind]. by rewrite IH.
Qed.

Lemma rstrip_sep_dir (s : string) c :
  c ≠ "/"%char →
  OsPath.rstrip_sep (s +:+ String c "/") = s +:+ String c EmptyString.
Proof.
  intros Hne. induction s as [|a s IH].
  - rewrite !string_app_nil. cbn [OsPath.rstrip_sep]. rewrite Ascii.eqb_refl.
    by apply Ascii.eqb_neq in Hne as ->.
  - rewrite !string_app_cons. cbn [OsPath.rstrip_sep]. rewrite IH.
    by destruct s.
Qed.

Lemma lacks_sep_name_ext (name ext : string) :
  lacks "/" name = true → lacks "/" ext = true →
  lacks "/" (name +:+ "." +:+ ext) = true.
Proof.
  intros Hs Hes. change ("." +:+ ext) with (String "."%char ext).
  rewrite lacks_app. cbn [lacks]. by rewrite Hs, Hes.
Qed.

(** The three pieces of a path [d/name.ext] as main and the worker take it
    apart. *)
Lemma dirname_of_path d0 c rest :
  c ≠ "/"%char → lacks "/" rest = true →
  OsPath.dirname ((d0 +:+ String c EmptyString) +:+ "/" +:+ rest)
  = d0 +:+ String c EmptyString.
Proof.
  intros Hc Hrest. unfold OsPath.dirname.
  change ("/" +:+ rest) with (String "/" rest).
  rewrite rfind_app_sep by done.
  replace (Z.of_nat (String.length (d0 +:+ String c EmptyString)) + 1)
    with (Z.of_nat (String.length ((d0 +:+ String c EmptyString) +:+ "/")))
    by (rewrite (string_length_app _ "/"); simpl; lia).
  replace ((d0 +:+ String c EmptyString) +:+ String "/" rest)
    with (((d0 +:+ String c EmptyString) +:+ "/") +:+ rest)
    by (by rewrite string_app_assoc).
  rewrite upto_app, string_app_assoc.
  change (String c EmptyString +:+ "/") with (String c "/").
  rewrite rstrip_sep_dir by done. by destruct d0.
Qed.

Lemma basename_of_path (d rest : string) :
  lacks "/" rest = true → OsPath.basename (d +:+ "/" +:+ rest) = rest.
Proof.
  intros Hrest. unfold OsPath.basename.
  change ("/" +:+ rest) with (String "/" rest).
  rewrite rfind_app_sep by done.
  replace (Z.of_nat (String.length d) + 1)
    with (Z.of_nat (String.length (d +:+ "/")))
    by (rewrite (string_length_app _ "/"); simpl; lia).
  replace (d +:+ String "/" rest) with ((d +:+ "/") +:+ rest)
    by (by rewrite string_app_assoc).
  apply from_app.
Qed.

Lemma splitext_of_name (name ext : string) :
  name ≠ EmptyString → lacks "/" name = true → lacks "." name = true →
  lacks "/" ext = true → lacks "." ext = true →
  (OsPath.splitext (name +:+ "." +:+ ext)).1 = name.
Proof.
  intros Hname Hs Hd Hes Hed. unfold OsPath.splitext.
  change ("." +:+ ext) with (String "." ext).
  rewrite (rfind_lacks "/") by (by apply lacks_sep_name_ext).
  rewrite rfind_app_sep by done.
  rewrite bool_decide_eq_true_2 by lia.
  replace (Z.to_nat (-1 + 1)) with 0%nat by lia.
  replace (Z.to_nat (Z.of_nat (String.length name) - (-1 + 1)))
    with (String.length name) by lia.
  rewrite substring_app_l, upto_app.
  destruct name as [|a name]; [done|]. cbn [list_ascii_of_string existsb].
  cbn [lacks] in Hd. apply andb_true_iff in Hd as [-> _]. done.
Qed.

Lemma join_folder d0 c (b : string) n0 b' :
  c ≠ "/"%char → b = String n0 b' → n0 ≠ "/"%char →
  OsPath.join (d0 +:+ String c EmptyString) b
  = (d0 +:+ String c EmptyString) +:+ "/" +:+ b.
Proof.
  intros Hc -> Hn. unfold OsPath.join. cbn [String.prefix].
  destruct (ascii_dec "/" n0) as [<-|_]; [done|].
  rewrite bool_decide_eq_false_2 by (by destruct d0).
  rewrite bool_decide_eq_false_2; [done|].
  rewrite rfind_snoc_ne by done.
  pose proof (rfind_range "/" d0). rewrite string_length_app. simpl. lia.
Qed.

(** X15.  For an input [d/name.ext], where the folder [d] does not end in a
    slash and [name] and [ext] hold no slash and no dot, the command-line
    loop writes to [d/name.csv]: the folder of the input, its name, the
    extension .csv. *)
Theorem cli_out_path_same_folder d0 c (name ext : string) :
  c ≠ "/"%char → name ≠ EmptyString →
  lacks "/" name = true → lacks "." name = true →
  lacks "/" ext = true → lacks "." ext = true →
  let d := d0 +:+ String c EmptyString in
  cli_out_path (d +:+ "/" +:+ name +:+ "." +:+ ext) = d +:+ "/" +:+ name +:+ ".csv".
Proof.
  intros Hc Hname Hs Hd Hes Hed d. unfold cli_out_path.
  assert (Hrest : lacks "/" (name +:+ "." +:+ ext) = true)
    by (by apply lacks_sep_name_ext).
  subst d. rewrite dirname_of_path, basename_of_path, splitext_of_name by done.
  destruct name as [|n0 name']; [done|].
  apply (join_folder d0 c _ n0 (name' +:+ ".csv")); [done|done|].
  cbn [lacks] in Hs. apply andb_true_iff in Hs as [Hn _].
  by apply negb_true_iff, Ascii.eqb_neq in Hn.
Qed.

Lemma cli_out_path_same_folder_witness :
  "a"%char ≠ "/"%char ∧ "scan" ≠ EmptyString
  ∧ lacks "/" "scan" = true ∧ lacks "." "scan" = true
  ∧ lacks "/" "laz" = true ∧ lacks "." "laz" = true
  ∧ cli_out_path "data/scan.laz" = "data/scan.csv".
Proof.
  assert (H1 : "a"%char ≠ "/"%char) by discriminate.
  assert (H2 : "scan" ≠ EmptyString) by discriminate.
  assert (H3 : lacks "/" "scan" = true) by reflexivity.
  assert (H4 : lacks "." "scan" = true) by reflexivity.
  assert (H5 : lacks "/" "laz" = true) by reflexivity.
  assert (H6 : lacks "." "laz" = true) by reflexivity.
  split_and!; try assumption.
  exact (cli_out_path_same_folder "dat" "a" "scan" "laz" H1 H2 H3 H4 H5 H6).
Defined.

(** X16.  For the same kind of input the worker writes [name.csv] or
    [name.xlsx], as the check box says, into the chosen output folder when
    one is set (and does not end in a slash) and into the folder of the
    input otherwise. *)
Theorem worker_out_path_folder self d0 c (name ext : string) :
  c ≠ "/"%char → name ≠ EmptyString →
  lacks "/" name = true → lacks "." name = true →
  lacks "/" ext = true → lacks "." ext = true →
  (output_dir self = EmptyString
   ∨ ∃ o0 c', output_dir self = o0 +:+ String c' EmptyString ∧ c' ≠ "/"%char) →
  let d := d0 +:+ String c EmptyString in
  worker_out_path self (d +:+ "/" +:+ name +:+ "." +:+ ext)
  = (if bool_decide (output_dir self = EmptyString) then d else output_dir self)
    +:+ "/" +:+ name +:+ (if as_csv_var self then ".csv" else ".xlsx").
Proof.
  intros Hc Hname Hs Hd Hes Hed Hout d. unfold worker_out_path.
  assert (Hrest : lacks "/" (name +:+ "." +:+ ext) = true)
    by (by apply lacks_sep_name_ext).
  subst d. rewrite dirname_of_path, basename_of_path, splitext_of_name by done.
  destruct name as [|n0 name']; [done|].
  assert (Hn : n0 ≠ "/"%char).
  { cbn [lacks] in Hs. apply andb_true_iff in Hs as [Hn _].
    by apply negb_true_iff, Ascii.eqb_neq in Hn. }
  destruct Hout as [Hempty|(o0 & c' & Ho & Hc')].
  - rewrite Hempty.
    rewrite (bool_decide_eq_false_2 (EmptyString ≠ EmptyString)) by (intros H; by apply H).
    rewrite (bool_decide_eq_true_2 (EmptyString = EmptyString)) by done.
    by apply (join_folder d0 c _ n0
                (name' +:+ (if as_csv_var self then ".csv" else ".xlsx"))).
  - rewrite Ho.
    rewrite (bool_decide_eq_true_2 (_ ≠ EmptyString)) by (by destruct o0).
    rewrite (bool_decide_eq_false_2 (_ = EmptyString)) by (by destruct o0).
    by apply (join_folder o0 c' _ n0
                (name' +:+ (if as_csv_var self then ".csv" else ".xlsx"))).
Qed.

Lemma worker_out_path_folder_witness :
  "a"%char ≠ "/"%char ∧ "scan" ≠ EmptyString
  ∧ lacks "/" "scan" = true ∧ lacks "." "scan" = true
  ∧ lacks "/" "laz" = true ∧ lacks "." "laz" = true
  ∧ worker_out_path (mkApp [] "out" false) "data/scan.laz" = "out/scan.xlsx".
Proof.
  assert (H1 : "a"%char ≠ "/"%char) by discriminate.
  assert (H2 : "scan" ≠ EmptyString) by discriminate.
  assert (H3 : lacks "/" "scan" = true) by reflexivity.
  assert (H4 : lacks "." "scan" = true) by reflexivity.
  assert (H5 : lacks "/" "laz" = true) by reflexivity.
  assert (H6 : lacks "." "laz" = true) by reflexivity.
  assert (H7 : output_dir (mkApp [] "out" false) = EmptyString
               ∨ ∃ o0 c', output_dir (mkApp [] "out" false)
                          = o0 +:+ String c' EmptyString ∧ c' ≠ "/"%char).
  { right. exists "ou", "t"%char. split; [reflexivity|discriminate]. }
  split_and!; try assumption.
  exact (worker_out_path_folder (mkApp [] "out" false) "dat" "a" "scan" "laz"
           H1 H2 H3 H4 H5 H6 H7).
Defined.

(** ** The window *)

Lemma listbox_fill (acc paths : list string) :
  foldl (λ lb p, lb ++ [p]) acc paths = acc ++ paths.
Proof.
  revert acc. induction paths as [|p paths IH]; intros acc.
  - by rewrite app_nil_r.
  - cbn [foldl]. by rewrite IH, <- app_assoc.
Qed.

Lemma error_boxes_app ui1 ui2 :
  error_boxes (ui1 ++ ui2) = error_boxes ui1 ++ error_boxes ui2.
Proof. apply bind_app. Qed.

(** The callbacks of the worker before the completion callback move the
    progress bar and open error boxes, and change nothing else. *)
Lemma callbacks_before_done (self : Window) ui :
  Forall (λ ev, ∀ n, ev ≠ ExportDone n) ui →
  foldl run_callback self ui
  = mkWindow (fields self) (out_var self) (listbox self) (status_var self)
      (import_btn self) (out_btn self) (export_btn self)
      (progress_maximum self)
      (default (progress_value self) (last (progress_values ui)))
      (dialogs self ++ error_boxes ui).
Proof.
  induction ui as [|ev ui IH] using rev_ind; intros Hall.
  - cbn. rewrite app_nil_r. by destruct self.
  - rewrite Forall_app, Forall_singleton in Hall. destruct Hall as [Hui Hev].
    rewrite foldl_app, IH by done. cbn [foldl].
    rewrite progress_values_app, error_boxes_app.
    destruct ev as [p e|v|n]; [| |by destruct (Hev n)]; cbn.
    + by rewrite !app_nil_r, app_assoc.
    + by rewrite last_snoc, !app_nil_r.
Qed.

Lemma last_seqZ_from_1 (n : nat) :
  (0 < n)%nat → last (seqZ 1 (Z.of_nat n)) = Some (Z.of_nat n).
Proof.
  destruct n as [|n]; [lia|]. intros _.
  rewrite seqZ_S, last_snoc. f_equal. lia.
Qed.

Lemma on_export_selected (self : Window) :
  selected_files (fields self) ≠ [] →
  on_export self
  = (mkWindow (fields self) (out_var self) (listbox self) "Exporting..."
       false false false
       (Z.of_nat (length (selected_files (fields self)))) 0 (dialogs self),
     true).
Proof.
  intros Hsel. unfold on_export.
  destruct (selected_files (fields self)) as [|p sel] eqn:Hfiles; [done|].
  cbn. by rewrite Hfiles.
Qed.

(** One click on the export button with files selected, the worker and its
    callbacks run to the end. *)
Lemma click_export_within fuel (self : Window) (fs : gmap string File) :
  las_within fuel fs → export_btn self = true →
  selected_files (fields self) ≠ [] →
  let n := Z.of_nat (length (selected_files (fields self))) in
  ∃ fs' ui,
    let ok := n - Z.of_nat (length (error_paths ui)) in
    mainloop_step fuel (Return, (self, fs)) ClickExport
    = (Return,
       (mkWindow (fields self) (out_var self) (listbox self)
          ("Completed: " +:+ pretty ok +:+ "/" +:+ pretty n)
          true true true n n
          (dialogs self ++ error_boxes ui
           ++ (if bool_decide (0 < ok)
               then [ShowInfo "Done" ("Exported " +:+ pretty ok +:+ " file(s)")]
               else [])),
        fs'))
    ∧ error_paths ui `sublist_of` selected_files (fields self)
    ∧ las_within fuel fs'.
Proof.
  intros Hin Hbtn Hsel n. cbn [mainloop_step]. rewrite Hbtn.
  rewrite on_export_selected by done.
  set (self1 := mkWindow _ _ _ _ _ _ _ _ _ _).
  destruct (worker_returns_within fuel (fields self) fs Hin)
    as (Hret & ui & Hui & Hdone & Hp & He & Hw).
  change (fields self1) with (fields self).
  destruct (_export_worker fuel (fields self) fs) as [o [fs' evs]].
  cbn [fst snd] in *. subst o evs.
  exists fs', ui. split_and!; [|done|done].
  rewrite foldl_app, (callbacks_before_done self1 ui Hdone). cbn [foldl run_callback].
  unfold _export_done, enable_controls. subst self1.
  cbn [fields out_var listbox status_var import_btn out_btn export_btn
         progress_maximum progress_value dialogs].
  rewrite Hp.
  assert (Hlast : last (seqZ 1 (Z.of_nat (length (selected_files (fields self)))))
                  = Some n).
  { apply last_seqZ_from_1. destruct (selected_files (fields self)); [done|].
    simpl. lia. }
  rewrite Hlast. cbn [default]. fold n.
  case_bool_decide; [by rewrite <- app_assoc|by rewrite app_nil_r].
Qed.

(** X17.  After a click on the export button with files selected, once the
    worker and its callbacks have run, the three buttons are enabled again,
    the progress bar stands at its maximum, the number of files, the status
    line reads Completed: ok/n with ok the number of files without an error
    box, the error boxes come before a final Done box that is shown only
    when ok is positive, and the selection, the list box and the output
    field are as before. *)
Theorem click_export_completes fuel (self : Window) (fs : gmap string File) :
  las_within fuel fs → export_btn self = true →
  selected_files (fields self) ≠ [] →
  let n := Z.of_nat (length (selected_files (fields self))) in
  ∃ fs' ui,
    let ok := n - Z.of_nat (length (error_paths ui)) in
    mainloop_step fuel (Return, (self, fs)) ClickExport
    = (Return,
       (mkWindow (fields self) (out_var self) (listbox self)
          ("Completed: " +:+ pretty ok +:+ "/" +:+ pretty n)
          true true true n n
          (dialogs self ++ error_boxes ui
           ++ (if bool_decide (0 < ok)
               then [ShowInfo "Done" ("Exported " +:+ pretty ok +:+ " file(s)")]
               else [])),
        fs'))
    ∧ error_paths ui `sublist_of` selected_files (fields self)
    ∧ las_within fuel fs'.
Proof. apply click_export_within. Qed.

Lemma click_export_completes_witness :
  las_within 3 (files batch_world)
  ∧ export_btn (on_import ["d/bad.las"; "d/good.las"] App_init) = true
  ∧ selected_files (fields (on_import ["d/bad.las"; "d/good.las"] App_init)) ≠ []
  ∧ ∃ fs' ui,
      (mainloop_step 3
         (Return, (on_import ["d/bad.las"; "d/good.las"] App_init, files batch_world))
         ClickExport).2.2 = fs'
      ∧ error_paths ui `sublist_of` ["d/bad.las"; "d/good.las"].
Proof.
  assert (H1 : las_within 3 (files batch_world)).
  { intros p f. unfold batch_world. cbn [files].
    destruct (decide (p = "d/bad.las")) as [->|Hb].
    { rewrite lookup_insert_eq. intros [= <-]. simpl. lia. }
    rewrite lookup_insert_ne by done.
    destruct (decide (p = "d/good.las")) as [->|Hg].
    { rewrite lookup_singleton_eq. intros [= <-]. simpl. lia. }
    by rewrite lookup_singleton_ne. }
  assert (H2 : export_btn (on_import ["d/bad.las"; "d/good.las"] App_init) = true)
    by reflexivity.
  assert (H3 : selected_files
                 (fields (on_import ["d/bad.las"; "d/good.las"] App_init)) ≠ [])
    by discriminate.
  split_and!; try assumption.
  destruct (click_export_completes 3
              (on_import ["d/bad.las"; "d/good.las"] App_init)
              (files batch_world) H1 H2 H3) as (fs' & ui & Hrun & Hsub & _).
  exists fs', ui. split; [by rewrite Hrun | exact Hsub].
Defined.

Lemma App_init_at_rest : window_at_rest App_init.
Proof. unfold window_at_rest. split_and!; reflexivity. Qed.

Lemma mainloop_step_at_rest fuel (self : Window) (fs : gmap string File) a :
  las_within fuel fs → window_at_rest self →
  ∃ self' fs',
    mainloop_step fuel (Return, (self, fs)) a = (Return, (self', fs'))
    ∧ window_at_rest self' ∧ las_within fuel fs'.
Proof.
  intros Hin Hrest. pose proof Hrest as (Hb1 & Hb2 & Hb3 & Hlist & Hout).
  destruct a as [paths|d| |]; cbn [mainloop_step].
  - rewrite Hb1. eexists _, fs. split; [reflexivity|]. split; [|exact Hin].
    unfold on_import. destruct paths as [|p paths]; [exact Hrest|].
    unfold window_at_rest.
    cbn [import_btn out_btn export_btn listbox out_var fields selected_files
           output_dir].
    rewrite listbox_fill. split_and!; assumption || reflexivity.
  - rewrite Hb2. eexists _, fs. split; [reflexivity|]. split; [|exact Hin].
    unfold on_choose_output. destruct (decide (d = EmptyString)) as [Hd|Hd].
    { rewrite (bool_decide_eq_true_2 (d = EmptyString)) by exact Hd. exact Hrest. }
    rewrite (bool_decide_eq_false_2 (d = EmptyString)) by exact Hd.
    unfold window_at_rest.
    cbn [import_btn out_btn export_btn listbox out_var fields selected_files
           output_dir].
    rewrite (bool_decide_eq_false_2 (d = EmptyString)) by exact Hd.
    split_and!; assumption || reflexivity.
  - eexists _, fs. split; [reflexivity|]. split; [|exact Hin].
    unfold window_at_rest, toggle_csv.
    cbn [import_btn out_btn export_btn listbox out_var fields selected_files
           output_dir].
    split_and!; assumption.
  - rewrite Hb3.
    destruct (decide (selected_files (fields self) = [])) as [Hnone|Hsel].
    + unfold on_export. rewrite Hnone. eexists _, fs.
      split; [reflexivity|]. split; [|exact Hin].
      unfold window_at_rest.
      cbn [import_btn out_btn export_btn listbox out_var fields selected_files
             output_dir].
      split_and!; assumption.
    + destruct (click_export_within fuel self fs Hin Hb3 Hsel)
        as (fs' & ui & Hrun & _ & Hin').
      cbn [mainloop_step] in Hrun. rewrite Hb3 in Hrun. rewrite Hrun.
      eexists _, fs'. split; [reflexivity|]. split; [|exact Hin'].
      unfold window_at_rest.
      cbn [import_btn out_btn export_btn listbox out_var fields selected_files
             output_dir].
      split_and!; assumption || reflexivity.
Qed.

(** X18.  Whatever the user does in a session (imports, choices of an
    output folder, the check box, clicks on the export button), when every
    .las file can be read within the fuel the window is at rest after each
    action: the three buttons are enabled, the list box shows the selected
    files and the output field shows the output folder or its placeholder.
    No export leaves the controls disabled. *)
Theorem mainloop_at_rest fuel actions (fs : gmap string File) :
  las_within fuel fs →
  let r := mainloop fuel actions fs in
  r.1 = Return ∧ window_at_rest r.2.1 ∧ las_within fuel r.2.2.
Proof.
  intros Hin r. subst r. unfold mainloop.
  induction actions as [|a actions IH] using rev_ind.
  - split_and!; [done|apply App_init_at_rest|done].
  - rewrite foldl_app. cbn [foldl].
    destruct (foldl (mainloop_step fuel) (Return, (App_init, fs)) actions)
      as [o [self fs1]].
    destruct IH as (Ho & Hrest & Hin1). cbn [fst snd] in *. subst o.
    destruct (mainloop_step_at_rest fuel self fs1 a Hin1 Hrest)
      as (self' & fs' & -> & Hrest' & Hin').
    by split_and!.
Qed.

Lemma mainloop_at_rest_witness :
  las_within 3 (files batch_world)
  ∧ window_at_rest
      (mainloop 3 [Import ["d/bad.las"; "d/good.las"]; ChooseOutput "out";
                   ToggleCsv; ClickExport] (files batch_world)).2.1.
Proof.
  assert (H1 : las_within 3 (files batch_world)).
  { intros p f. unfold batch_world. cbn [files].
    destruct (decide (p = "d/bad.las")) as [->|Hb].
    { rewrite lookup_insert_eq. intros [= <-]. simpl. lia. }
    rewrite lookup_insert_ne by done.
    destruct (decide (p = "d/good.las")) as [->|Hg].
    { rewrite lookup_singleton_eq. intros [= <-]. simpl. lia. }
    by rewrite lookup_singleton_ne. }
  split; [assumption|].
  exact (proj1 (proj2 (mainloop_at_rest 3
                         [Import ["d/bad.las"; "d/good.las"]; ChooseOutput "out";
                          ToggleCsv; ClickExport] (files batch_world) H1))).
Defined.
